(** * ATS resume analyzer: the analysis core of [ats_api.py]

    A shallow embedding of the document preprocessor, the response parser,
    the completion client with its retry loop, the two three-stage analysis
    chains and the two HTTP handlers, followed by the properties proved about
    them.

    Conventions.
    - Python [str] values are lists of 8-bit characters (code points 0..255).
    - Python [int] values are [Z]; list indices and lengths are [nat].
    - The float literals 0.1, 0.2, 0.3 and 0.95 are the rationals they denote.
    - Library calls ([fitz], [pdf2image], [PIL], [base64], [json], the Gemini
      client) and the five prompt templates are parameters of the sections
      that use them.
    - An exception is a value of [exn]; a function that can raise returns a
      [result].  What is printed is not modelled. *)

From Stdlib Require Import String Ascii ZArith QArith Bool Arith Lia List.
Import ListNotations.
Close Scope Q_scope.
Open Scope nat_scope.

Set Implicit Arguments.
Set Warnings "-abstract-large-number".

(** ** Text *)

Definition str := list ascii.

Definition s_ (s : string) : str := list_ascii_of_string s.

(** The double quote and the backslash, by code point. *)
Definition dq : ascii := ascii_of_nat 34.
Definition bsl : ascii := ascii_of_nat 92.
Definition lbrace : ascii := ascii_of_nat 123.
Definition rbrace : ascii := ascii_of_nat 125.
Definition colon : ascii := ascii_of_nat 58.
Definition backtick : ascii := ascii_of_nat 96.

(** [Py_UNICODE_ISSPACE] on code points below 256: what [\s] matches in a
    [str] pattern and what [str.strip()] removes. *)
Definition is_space (c : ascii) : bool :=
  let n := nat_of_ascii c in
  ((9 <=? n) && (n <=? 13)) || ((28 <=? n) && (n <=? 32))
  || (n =? 133) || (n =? 160).

(** [s[a:b]] for non-negative [a] and [b]. *)
Definition slice (s : str) (a b : nat) : str := firstn (b - a) (skipn a s).

(** [s.startswith(p)] *)
Fixpoint startswith (s p : str) {struct p} : bool :=
  match p, s with
  | [], _ => true
  | _ :: _, [] => false
  | c :: p', a :: s' => Ascii.eqb a c && startswith s' p'
  end.

(** [s.endswith(p)] *)
Definition endswith (s p : str) : bool :=
  (length p <=? length s) &&
  startswith (skipn (length s - length p) s) p.

(** [s.strip()]: leading and trailing white space removed. *)
Fixpoint lstrip (s : str) : str :=
  match s with
  | c :: s' => if is_space c then lstrip s' else s
  | [] => []
  end.

Definition rstrip (s : str) : str := rev (lstrip (rev s)).

Definition strip (s : str) : str := rstrip (lstrip s).

(** [s.replace(old, new)] for a non-empty [old]: the occurrences of [old]
    are replaced from left to right, without overlap.  [skip] counts the
    characters of an occurrence that are still to be dropped. *)
Fixpoint replace_go (s old new : str) (skip : nat) : str :=
  match s with
  | [] => []
  | c :: s' =>
      match skip with
      | S k => replace_go s' old new k
      | O => if startswith s old
             then new ++ replace_go s' old new (length old - 1)
             else c :: replace_go s' old new 0
      end
  end.

Definition replace (s old new : str) : str := replace_go s old new 0.

(** ** A backtracking matcher for the regular expressions of the parser

    The two patterns of [parse_json_from_response] are sequences of
    literals, character classes under a greedy or a lazy repetition, and one
    capture group.  [match_here] tries the alternatives in the order of
    Python's [re]: a greedy repetition takes one more character first, a
    lazy one tries the rest of the pattern first. *)

Inductive item : Type :=
| Lit (c : ascii)
| StarG (p : ascii -> bool)
| PlusG (p : ascii -> bool)
| StarL (p : ascii -> bool)
| GOpen
| GClose.

Record span : Type := Span { sp_start : nat; sp_end : nat }.

Record re_match : Type := Match {
  m_start : nat;
  m_end : nat;
  m_group1 : span
}.

Section Matcher.

(** The continuation: the rest of the pattern, applied to the rest of the
    text, the position reached and the group recorded so far. *)
Variable k : str -> nat -> span -> option (nat * span).

Fixpoint star_greedy (p : ascii -> bool) (s : str) (i : nat) (g : span)
  : option (nat * span) :=
  match s with
  | a :: s' =>
      if p a then
        match star_greedy p s' (S i) g with
        | Some m => Some m
        | None => k s i g
        end
      else k s i g
  | [] => k s i g
  end.

Fixpoint star_lazy (p : ascii -> bool) (s : str) (i : nat) (g : span)
  : option (nat * span) :=
  match k s i g with
  | Some m => Some m
  | None =>
      match s with
      | a :: s' => if p a then star_lazy p s' (S i) g else None
      | [] => None
      end
  end.

End Matcher.

Fixpoint match_here (items : list item) : str -> nat -> span -> option (nat * span) :=
  match items with
  | [] => fun _ i g => Some (i, g)
  | Lit c :: r =>
      fun s i g =>
        match s with
        | a :: s' => if Ascii.eqb a c then match_here r s' (S i) g else None
        | [] => None
        end
  | StarG p :: r => star_greedy (match_here r) p
  | PlusG p :: r =>
      fun s i g =>
        match s with
        | a :: s' => if p a then star_greedy (match_here r) p s' (S i) g else None
        | [] => None
        end
  | StarL p :: r => star_lazy (match_here r) p
  | GOpen :: r => fun s i g => match_here r s i (Span i (sp_end g))
  | GClose :: r => fun s i g => match_here r s i (Span (sp_start g) i)
  end.

(** [re.search]: the leftmost position at which the pattern matches. *)
Fixpoint search_from (items : list item) (s : str) (i : nat) : option re_match :=
  match match_here items s i (Span 0 0) with
  | Some (e, g) => Some (Match i e g)
  | None =>
      match s with
      | [] => None
      | _ :: s' => search_from items s' (S i)
      end
  end.

Definition re_search (items : list item) (text : str) : option re_match :=
  search_from items text 0.

(** [json_match.group(1)] *)
Definition group1 (text : str) (m : re_match) : str :=
  slice text (sp_start (m_group1 m)) (sp_end (m_group1 m)).

Definition any_char (_ : ascii) : bool := true.
Definition not_dq (c : ascii) : bool := negb (Ascii.eqb c dq).

Definition lits (s : string) : list item := map Lit (s_ s).

(** [r'```json\s*([\s\S]*?)\s*```'] *)
Definition fence_re : list item :=
  lits "```json" ++ [StarG is_space; GOpen; StarL any_char; GClose;
                     StarG is_space] ++ lits "```".

(** The pattern of the unfenced case: an opening brace, [\s*], a double
    quote, one or more characters other than a double quote, a double quote,
    [\s*] and a colon. *)
Definition object_re : list item :=
  [Lit lbrace; StarG is_space; Lit dq; PlusG not_dq; Lit dq;
   StarG is_space; Lit colon].

(** ** Exceptions and results *)

Inductive exn : Type :=
| ValueError (msg : str)
| RuntimeError (msg : str)
| AttributeError (msg : str)
| LibraryError (msg : str).

(** [str(e)] *)
Definition exn_str (e : exn) : str :=
  match e with
  | ValueError m | RuntimeError m | AttributeError m | LibraryError m => m
  end.

Inductive result (A : Type) : Type :=
| Ok (a : A)
| Raise (e : exn).

Arguments Ok {A} a.
Arguments Raise {A} e.

(** ** JSON values

    What [json.loads] returns: [None], [bool], [int], [float], [str], [list]
    and [dict].  A [dict] keeps its keys in insertion order.  A [float] is
    kept as the lexeme it was read from. *)

#[local] Unset Elimination Schemes.
Inductive json : Type :=
| JNull
| JBool (b : bool)
| JInt (z : Z)
| JFloat (lexeme : str)
| JString (s : str)
| JArray (l : list json)
| JObject (d : list (str * json)).
#[local] Set Elimination Schemes.

Definition dict := list (str * json).

Definition str_eqb (a b : str) : bool :=
  if list_eq_dec Ascii.ascii_dec a b then true else false.

(** [d.get(k)] *)
Fixpoint dict_get (d : dict) (k : str) : option json :=
  match d with
  | [] => None
  | (k', v) :: d' => if str_eqb k' k then Some v else dict_get d' k
  end.

(** [d[k] = v]: an existing key keeps its place. *)
Fixpoint dict_set (d : dict) (k : str) (v : json) : dict :=
  match d with
  | [] => [(k, v)]
  | (k', v') :: d' =>
      if str_eqb k' k then (k', v) :: d' else (k', v') :: dict_set d' k v
  end.

Definition dict_keys (d : dict) : list str := map fst d.

(** ** Response parser: [parse_json_from_response] *)

(** The [for i in range(start_pos, len(response_text))] loop that balances
    braces.  [s] is [response_text[i:]]; the result is the final value of
    [end_pos]. *)
Fixpoint balance_braces (s : str) (i : nat) (brace_count : Z)
    (in_string escape_next : bool) (end_pos : nat) : nat :=
  match s with
  | [] => end_pos
  | char :: s' =>
      if escape_next then
        balance_braces s' (S i) brace_count in_string false end_pos
      else if Ascii.eqb char bsl then
        balance_braces s' (S i) brace_count in_string true end_pos
      else
        let in_string :=
          if Ascii.eqb char dq && negb escape_next
          then negb in_string else in_string in
        if negb in_string then
          if Ascii.eqb char lbrace then
            balance_braces s' (S i) (brace_count + 1) in_string escape_next end_pos
          else if Ascii.eqb char rbrace then
            let brace_count := (brace_count - 1)%Z in
            if (brace_count =? 0)%Z then i + 1
            else balance_braces s' (S i) brace_count in_string escape_next end_pos
          else balance_braces s' (S i) brace_count in_string escape_next end_pos
        else balance_braces s' (S i) brace_count in_string escape_next end_pos
  end.

Definition msg_failed : str := s_ "Failed to parse analysis results".

Section Parser.

(** [json.loads]; [None] when it raises. *)
Variable json_loads : str -> option json.

(** The body of the [try] block. *)
Definition parse_json_try (response_text : str) : result json :=
  let found :=
    match re_search fence_re response_text with
    | Some json_match => Ok (group1 response_text json_match)
    | None =>
        match re_search object_re response_text with
        | Some json_match =>
            let start_pos := m_start json_match in
            let end_pos :=
              balance_braces (skipn start_pos response_text) start_pos
                             0%Z false false start_pos in
            if start_pos <? end_pos
            then Ok (slice response_text start_pos end_pos)
            else Raise (ValueError (s_ "Could not find complete JSON in response"))
        | None => Raise (ValueError (s_ "Could not find JSON in response"))
        end
    end in
  match found with
  | Ok json_str =>
      match json_loads json_str with
      | Some data => Ok data
      | None => Raise (ValueError (s_ "Expecting value"))
      end
  | Raise e => Raise e
  end.

(** The [except Exception] clause turns every failure into one
    [ValueError]. *)
Definition parse_json_from_response (response_text : str) : result json :=
  match parse_json_try response_text with
  | Ok data => Ok data
  | Raise _ => Raise (ValueError msg_failed)
  end.

End Parser.

(** ** Document preprocessor *)

Definition nl : ascii := ascii_of_nat 10.

(** [l[:n]] for a Python integer [n]: a negative [n] counts from the end. *)
Definition slice_to (A : Type) (l : list A) (n : Z) : list A :=
  if (0 <=? n)%Z then firstn (Z.to_nat n) l
  else firstn (Z.to_nat (Z.of_nat (length l) + n)) l.

(** A content part: [{"text": ...}] or [{"mime_type": ..., "data": ...}]. *)
Inductive part : Type :=
| TextPart (text : str)
| BlobPart (mime_type : str) (data : str).

Definition is_text_part (p : part) : bool :=
  match p with TextPart _ => true | BlobPart _ _ => false end.

Definition is_image_part (p : part) : bool :=
  match p with TextPart _ => false | BlobPart _ _ => true end.

(** Truth value of an optional string: [None] and the empty string are
    false. *)
Definition truthy (s : option str) : bool :=
  match s with
  | Some (_ :: _) => true
  | _ => false
  end.

Definition default_max_pages : Z := 5.

(** The bound of [text_content[:10000]]. *)
Definition text_limit : nat := 10000.
Arguments text_limit : simpl never.

Definition resume_label : str := [nl; nl] ++ s_ "Resume text content: ".
Definition ellipsis : str := s_ "...".
Definition job_label : str := [nl; nl] ++ s_ "JOB DESCRIPTION:" ++ [nl].

Section Preprocessor.

Variable image : Type.

(** [fitz.open(stream=pdf_bytes, filetype="pdf")]: [None] when it raises;
    otherwise the pages, each with the outcome of [page.get_text()]. *)
Variable fitz_open : list Byte.byte -> option (list (option str)).

(** [pdf2image.convert_from_bytes]; [None] when it raises. *)
Variable convert_from_bytes : list Byte.byte -> option (list image).

(** [img.save(buffer, format='JPEG')] followed by [getvalue()]. *)
Variable save_jpeg : image -> list Byte.byte.

(** [base64.b64encode(b).decode()] *)
Variable b64encode : list Byte.byte -> str.

(** The [for page_num in range(len(pdf_document))] loop; [None] when a
    page raises. *)
Fixpoint pages_text (pages : list (option str)) (text : str) : option str :=
  match pages with
  | [] => Some text
  | Some t :: rest => pages_text rest (text ++ t)
  | None :: _ => None
  end.

Definition extract_text_from_pdf (pdf_bytes : list Byte.byte) : str :=
  match fitz_open pdf_bytes with
  | Some pdf_document =>
      match pages_text pdf_document [] with
      | Some text => text
      | None => []
      end
  | None => []
  end.

Definition convert_pdf_to_images (pdf_bytes : list Byte.byte) (max_pages : Z)
  : list image :=
  match convert_from_bytes pdf_bytes with
  | Some images => slice_to images max_pages
  | None => []
  end.

Definition image_part (img : image) : part :=
  BlobPart (s_ "image/jpeg") (b64encode (save_jpeg img)).

Definition prepare_vision_content (pdf_bytes : list Byte.byte)
    (job_description : option str) (prompt : str) (include_images : bool)
  : list part :=
  let text_content := extract_text_from_pdf pdf_bytes in
  let text0 := prompt ++ resume_label ++ firstn text_limit text_content ++ ellipsis in
  let text1 :=
    if truthy job_description
    then text0 ++ job_label ++ match job_description with
                               | Some j => j
                               | None => []
                               end
    else text0 in
  let content_parts := [TextPart text1] in
  if include_images then
    let images := convert_pdf_to_images pdf_bytes default_max_pages in
    match images with
    | [] => content_parts
    | _ => content_parts ++ map image_part (firstn 3 images)
    end
  else content_parts.

End Preprocessor.

(** ** Completion client: [get_gemini_response] *)

Record generation_config : Type := GenerationConfig {
  temperature : Q;
  top_p : Q;
  top_k : Z;
  max_output_tokens : Z
}.

Definition max_retries : Z := 3.

(** The [generation_config] dictionary for a temperature. *)
Definition config_at (t : Q) : generation_config :=
  GenerationConfig t (95 # 100) 40 8192.

Definition msg_exhausted : str :=
  s_ "Failed to get response from Gemini after multiple attempts".

Section Client.

(** The state of the external service. *)
Variable oracle : Type.

(** [model.generate_content(contents, generation_config).text]: the reply
    text, or the exception raised. *)
Variable generate_content :
  list part -> generation_config -> oracle -> result str * oracle.

(** What an analysis can observe and change: the service, the requests
    sent to it so far and the durations slept so far, oldest first. *)
Record world : Type := World {
  w_oracle : oracle;
  w_requests : list (list part * generation_config);
  w_slept : list Z
}.

Definition M (A : Type) : Type := world -> result A * world.

Definition ret (A : Type) (a : A) : M A := fun w => (Ok a, w).

Definition raise (A : Type) (e : exn) : M A := fun w => (Raise e, w).

Definition bind (A B : Type) (m : M A) (f : A -> M B) : M B :=
  fun w =>
    match m w with
    | (Ok a, w') => f a w'
    | (Raise e, w') => (Raise e, w')
    end.

Definition lift (A : Type) (r : result A) : M A := fun w => (r, w).

(** One call of the service, recorded. *)
Definition call_model (content_parts : list part) (cfg : generation_config)
  : M str :=
  fun w =>
    let (r, o) := generate_content content_parts cfg (w_oracle w) in
    (r, World o (w_requests w ++ [(content_parts, cfg)]) (w_slept w)).

(** [time.sleep(seconds)] *)
Definition sleep (seconds : Z) : M unit :=
  fun w => (Ok tt, World (w_oracle w) (w_requests w) (w_slept w ++ [seconds])).

(** The [while retry_count < max_retries] loop, with one unit of [fuel]
    for each iteration; [None] when the fuel runs out. *)
Fixpoint retry_loop (fuel : nat) (content_parts : list part)
    (cfg : generation_config) (retry_count : Z) (w : world)
  : option (result str * world) :=
  match fuel with
  | O => None
  | S fuel' =>
      if (retry_count <? max_retries)%Z then
        match call_model content_parts cfg w with
        | (Ok text, w1) => Some (Ok text, w1)
        | (Raise e, w1) =>
            let retry_count := (retry_count + 1)%Z in
            if (retry_count >=? max_retries)%Z then Some (Raise e, w1)
            else
              retry_loop fuel' content_parts cfg retry_count
                         (snd (sleep (2 ^ retry_count) w1))
        end
      else Some (Raise (RuntimeError msg_exhausted), w)
  end.

Definition get_gemini_response (content_parts : list part) (temperature : Q)
  : M str :=
  fun w =>
    let generation_config := config_at temperature in
    match retry_loop (S (Z.to_nat max_retries)) content_parts
                     generation_config 0 w with
    | Some r => r
    | None => (Raise (RuntimeError msg_exhausted), w)
    end.

End Client.

Arguments ret {oracle A} a.
Arguments raise {oracle A} e.
Arguments lift {oracle A} r.
Arguments sleep {oracle} seconds.

Notation "x <- m ;; f" := (bind m (fun x => f))
  (at level 61, m at next level, right associativity).

(** ** Analysis orchestrator *)

Definition starts_with_underscore (k : str) : bool := startswith k (s_ "_").

(** [type(v).__name__] *)
Definition type_name (v : json) : str :=
  match v with
  | JNull => s_ "NoneType"
  | JBool _ => s_ "bool"
  | JInt _ => s_ "int"
  | JFloat _ => s_ "float"
  | JString _ => s_ "str"
  | JArray _ => s_ "list"
  | JObject _ => s_ "dict"
  end.

(** [{k: v for k, v in final_analysis.items() if not k.startswith('_')}];
    only a [dict] has [items]. *)
Definition client_response_of (final_analysis : json) : result dict :=
  match final_analysis with
  | JObject d =>
      Ok (filter (fun kv => negb (starts_with_underscore (fst kv))) d)
  | v => Raise (AttributeError (s_ "'" ++ type_name v ++
                                s_ "' object has no attribute 'items'"))
  end.

(** The mode of an analysis: which of the two chains runs. *)
Inductive analysis_mode : Type := ATS_ONLY | JOB_MATCHING.

Section Orchestrator.

Variable image : Type.
Variable fitz_open : list Byte.byte -> option (list (option str)).
Variable convert_from_bytes : list Byte.byte -> option (list image).
Variable save_jpeg : image -> list Byte.byte.
Variable b64encode : list Byte.byte -> str.
Variable json_loads : str -> option json.

(** [json.dumps(value, indent=2)] *)
Variable json_dumps : json -> str.

Variable oracle : Type.
Variable generate_content :
  list part -> generation_config -> oracle -> result str * oracle.

(** The five prompt templates. *)
Variable STEP1_SYSTEM_PROMPT : str.
Variable STEP2_JOB_MATCHING_PROMPT : str.
Variable STEP3_JOB_MATCHING_PROMPT : str.
Variable STEP2_ATS_ONLY_PROMPT : str.
Variable STEP3_ATS_ONLY_PROMPT : str.

Definition prepare : list Byte.byte -> option str -> str -> bool -> list part :=
  prepare_vision_content fitz_open convert_from_bytes save_jpeg b64encode.

Definition complete : list part -> Q -> M oracle str :=
  get_gemini_response generate_content.

Definition parse (text : str) : M oracle json :=
  lift (parse_json_from_response json_loads text).

Definition FIRST : str := s_ "{{FIRST_STAGE_ANALYSIS}}".
Definition SECOND : str := s_ "{{SECOND_STAGE_ANALYSIS}}".

(** The two chains.  Their [except] clause prints the exception and raises
    it again. *)
Definition analyze_resume_ats_only (pdf_bytes : list Byte.byte)
  : M oracle dict :=
  let step1_prompt := STEP1_SYSTEM_PROMPT in
  let step1_content := prepare pdf_bytes None step1_prompt true in
  step1_response <- complete step1_content (1 # 10) ;;
  step1_analysis <- parse step1_response ;;
  let step2_prompt :=
    replace STEP2_ATS_ONLY_PROMPT FIRST (json_dumps step1_analysis) in
  let step2_content := prepare pdf_bytes None step2_prompt false in
  step2_response <- complete step2_content (2 # 10) ;;
  step2_analysis <- parse step2_response ;;
  let step3_prompt :=
    replace (replace STEP3_ATS_ONLY_PROMPT FIRST (json_dumps step1_analysis))
            SECOND (json_dumps step2_analysis) in
  let step3_content := prepare pdf_bytes None step3_prompt false in
  step3_response <- complete step3_content (3 # 10) ;;
  final_analysis <- parse step3_response ;;
  client_response <- lift (client_response_of final_analysis) ;;
  ret client_response.

Definition analyze_resume_job_matching (pdf_bytes : list Byte.byte)
    (job_description : str) : M oracle dict :=
  let step1_prompt := STEP1_SYSTEM_PROMPT in
  let step1_content := prepare pdf_bytes None step1_prompt true in
  step1_response <- complete step1_content (1 # 10) ;;
  step1_analysis <- parse step1_response ;;
  let step2_prompt :=
    replace STEP2_JOB_MATCHING_PROMPT FIRST (json_dumps step1_analysis) in
  let step2_content :=
    prepare pdf_bytes (Some job_description) step2_prompt false in
  step2_response <- complete step2_content (2 # 10) ;;
  step2_analysis <- parse step2_response ;;
  let step3_prompt :=
    replace (replace STEP3_JOB_MATCHING_PROMPT FIRST (json_dumps step1_analysis))
            SECOND (json_dumps step2_analysis) in
  let step3_content :=
    prepare pdf_bytes (Some job_description) step3_prompt false in
  step3_response <- complete step3_content (3 # 10) ;;
  final_analysis <- parse step3_response ;;
  client_response <- lift (client_response_of final_analysis) ;;
  ret client_response.

(** The chain of a mode. *)
Definition analyze (mode : analysis_mode) (pdf_bytes : list Byte.byte)
    (job_description : str) : M oracle dict :=
  match mode with
  | ATS_ONLY => analyze_resume_ats_only pdf_bytes
  | JOB_MATCHING => analyze_resume_job_matching pdf_bytes job_description
  end.

(** ** HTTP handlers *)

Record upload_file : Type := UploadFile {
  filename : str;
  file_content : list Byte.byte
}.

Inductive response : Type :=
| JSONResponse (content : dict)
| HTTPException (status_code : Z) (detail : str).

Definition handler : Type := world oracle -> response * world oracle.

(** [JSONResponse(content=...)] renders its body when it is built: the
    serializer of the framework gives the body, or raises, as it does on a
    float that is not a finite number.  Both handlers build the response
    inside their [try]. *)
Variable render : dict -> result str.

Definition api_analyze_resume_job_matching (resume_file : upload_file)
    (job_description : str) : handler :=
  fun w =>
    if negb (endswith (filename resume_file) (s_ ".pdf")) then
      (HTTPException 400 (s_ "Only PDF files are supported"), w)
    else if negb (truthy (Some job_description))
            || str_eqb (strip job_description) [] then
      (HTTPException 400 (s_ "Job description is required"), w)
    else
      let pdf_bytes := file_content resume_file in
      match analyze_resume_job_matching pdf_bytes job_description w with
      | (Ok analysis_result, w') =>
          match render analysis_result with
          | Ok _ => (JSONResponse analysis_result, w')
          | Raise e => (HTTPException 500 (exn_str e), w')
          end
      | (Raise e, w') => (HTTPException 500 (exn_str e), w')
      end.

Definition api_analyze_resume_ats_only (resume_file : upload_file) : handler :=
  fun w =>
    if negb (endswith (filename resume_file) (s_ ".pdf")) then
      (HTTPException 400 (s_ "Only PDF files are supported"), w)
    else
      let pdf_bytes := file_content resume_file in
      match analyze_resume_ats_only pdf_bytes w with
      | (Ok analysis_result, w') =>
          match render analysis_result with
          | Ok _ => (JSONResponse analysis_result, w')
          | Raise e => (HTTPException 500 (exn_str e), w')
          end
      | (Raise e, w') => (HTTPException 500 (exn_str e), w')
      end.

Definition msg_missing : str := s_ "Field required".

(** The two routes as the framework serves them: a parameter declared
    [File(...)] or [Form(...)] is required, and a request without it is
    answered 422 before the handler runs.  A form value that is the empty
    string counts as missing. *)

Definition post_analyze_job_matching (resume_file : option upload_file)
    (job_description : option str) : handler :=
  match resume_file, job_description with
  | Some f, Some (c :: j) => api_analyze_resume_job_matching f (c :: j)
  | _, _ => fun w => (HTTPException 422 msg_missing, w)
  end.

Definition post_analyze_ats_only (resume_file : option upload_file) : handler :=
  match resume_file with
  | Some f => api_analyze_resume_ats_only f
  | None => fun w => (HTTPException 422 msg_missing, w)
  end.

End Orchestrator.

(** ** A decoder for JSON text

    [json_loads] follows the scanner of Python's [json] module (strict
    mode) on texts whose strings stay within the 8-bit alphabet: objects,
    arrays, strings with their escapes, numbers, [true], [false], [null],
    [NaN], [Infinity] and [-Infinity].  It is used to run the parser on
    concrete replies; the general statements hold for any decoder. *)

Inductive dres (A : Type) : Type :=
| DOk (a : A)
| DError          (* the text is not JSON: [JSONDecodeError] *)
| DBeyond         (* a [\u] escape above code point 255 *)
| DFuel.

Arguments DOk {A} a.
Arguments DError {A}.
Arguments DBeyond {A}.
Arguments DFuel {A}.

Definition is_json_ws (c : ascii) : bool :=
  let n := nat_of_ascii c in
  (n =? 32) || (n =? 9) || (n =? 10) || (n =? 13).

Fixpoint skip_ws (s : str) : str :=
  match s with
  | c :: s' => if is_json_ws c then skip_ws s' else s
  | [] => []
  end.

Definition is_digit (c : ascii) : bool :=
  (48 <=? nat_of_ascii c) && (nat_of_ascii c <=? 57).

Fixpoint span_digits (s : str) : str * str :=
  match s with
  | c :: s' =>
      if is_digit c then let (d, r) := span_digits s' in (c :: d, r)
      else ([], s)
  | [] => ([], [])
  end.

Definition digits_value (d : str) : Z :=
  fold_left (fun acc c => (10 * acc + Z.of_nat (nat_of_ascii c - 48))%Z) d 0%Z.

Definition hex_value (c : ascii) : option nat :=
  let n := nat_of_ascii c in
  if (48 <=? n) && (n <=? 57) then Some (n - 48)
  else if (65 <=? n) && (n <=? 70) then Some (n - 55)
  else if (97 <=? n) && (n <=? 102) then Some (n - 87)
  else None.

(** [py_scanstring] after the opening quote. *)
Fixpoint scanstring (s : str) (acc : str) : dres (str * str) :=
  match s with
  | [] => DError
  | c :: s' =>
      if Ascii.eqb c dq then DOk (rev acc, s')
      else if Ascii.eqb c bsl then
        match s' with
        | [] => DError
        | e :: s'' =>
            let simple (x : ascii) := scanstring s'' (x :: acc) in
            if Ascii.eqb e dq then simple dq
            else if Ascii.eqb e bsl then simple bsl
            else if Ascii.eqb e "/" then simple "/"%char
            else if Ascii.eqb e "b" then simple (ascii_of_nat 8)
            else if Ascii.eqb e "f" then simple (ascii_of_nat 12)
            else if Ascii.eqb e "n" then simple (ascii_of_nat 10)
            else if Ascii.eqb e "r" then simple (ascii_of_nat 13)
            else if Ascii.eqb e "t" then simple (ascii_of_nat 9)
            else if Ascii.eqb e "u" then
              match s'' with
              | h1 :: h2 :: h3 :: h4 :: s3 =>
                  match hex_value h1, hex_value h2, hex_value h3, hex_value h4 with
                  | Some a, Some b, Some c', Some d =>
                      let n := ((a * 16 + b) * 16 + c') * 16 + d in
                      if n <? 256 then scanstring s3 (ascii_of_nat n :: acc)
                      else DBeyond
                  | _, _, _, _ => DError
                  end
              | _ => DError
              end
            else DError
        end
      else if nat_of_ascii c <? 32 then DError
      else scanstring s' (c :: acc)
  end.

(** The number pattern of the scanner: an optional minus sign, an integer
    part without a leading zero, an optional fraction, an optional
    exponent. *)
Definition scan_number (s : str) : option (json * str) :=
  let (sign, s1) :=
    match s with
    | c :: r => if Ascii.eqb c "-" then ([c], r) else ([], s)
    | [] => ([], s)
    end in
  let int_part :=
    match s1 with
    | c :: r =>
        if Ascii.eqb c "0" then Some ([c], r)
        else if is_digit c then let (d, r') := span_digits r in Some (c :: d, r')
        else None
    | [] => None
    end in
  match int_part with
  | None => None
  | Some (ds, s2) =>
      let (frac, s3) :=
        match s2 with
        | c :: r =>
            if Ascii.eqb c "." then
              match span_digits r with
              | ([], _) => ([], s2)
              | (d, r') => (c :: d, r')
              end
            else ([], s2)
        | [] => ([], s2)
        end in
      let (expo, s4) :=
        match s3 with
        | c :: r =>
            if Ascii.eqb c "e" || Ascii.eqb c "E" then
              let (sg, r1) :=
                match r with
                | x :: r0 =>
                    if Ascii.eqb x "+" || Ascii.eqb x "-" then ([x], r0)
                    else ([], r)
                | [] => ([], r)
                end in
              match span_digits r1 with
              | ([], _) => ([], s3)
              | (d, r') => (c :: sg ++ d, r')
              end
            else ([], s3)
        | [] => ([], s3)
        end in
      match frac, expo with
      | [], [] =>
          let v := digits_value ds in
          Some (JInt (match sign with [] => v | _ => (- v)%Z end), s4)
      | _, _ => Some (JFloat (sign ++ ds ++ frac ++ expo), s4)
      end
  end.

(** [s] without the prefix [p], when it starts with it. *)
Fixpoint drop_prefix (p s : str) {struct p} : option str :=
  match p, s with
  | [], _ => Some s
  | c :: p', a :: s' => if Ascii.eqb a c then drop_prefix p' s' else None
  | _ :: _, [] => None
  end.

Definition scan_literal (s : str) : option (json * str) :=
  match drop_prefix (s_ "null") s with
  | Some r => Some (JNull, r)
  | None =>
  match drop_prefix (s_ "true") s with
  | Some r => Some (JBool true, r)
  | None =>
  match drop_prefix (s_ "false") s with
  | Some r => Some (JBool false, r)
  | None =>
  match scan_number s with
  | Some x => Some x
  | None =>
  match drop_prefix (s_ "NaN") s with
  | Some r => Some (JFloat (s_ "NaN"), r)
  | None =>
  match drop_prefix (s_ "Infinity") s with
  | Some r => Some (JFloat (s_ "Infinity"), r)
  | None =>
  match drop_prefix (s_ "-Infinity") s with
  | Some r => Some (JFloat (s_ "-Infinity"), r)
  | None => None
  end end end end end end end.

Definition dict_of_pairs (pairs : list (str * json)) : dict :=
  fold_left (fun d kv => dict_set d (fst kv) (snd kv)) pairs [].

(** [scan_once], [JSONObject] and [JSONArray].  The two loops are entered
    after white space has been skipped, at the first character of a member
    or of an element. *)
Fixpoint scan_once (fuel : nat) (s : str) : dres (json * str) :=
  match fuel with
  | O => DFuel
  | S fuel' =>
      match s with
      | [] => DError
      | c :: s' =>
          if Ascii.eqb c dq then
            match scanstring s' [] with
            | DOk (v, r) => DOk (JString v, r)
            | DError => DError
            | DBeyond => DBeyond
            | DFuel => DFuel
            end
          else if Ascii.eqb c lbrace then
            match skip_ws s' with
            | x :: r =>
                if Ascii.eqb x rbrace then DOk (JObject [], r)
                else object_members fuel' (x :: r) []
            | [] => DError
            end
          else if Ascii.eqb c "[" then
            match skip_ws s' with
            | x :: r =>
                if Ascii.eqb x "]" then DOk (JArray [], r)
                else array_elements fuel' (x :: r) []
            | [] => DError
            end
          else
            match scan_literal s with
            | Some x => DOk x
            | None => DError
            end
      end
  end

with object_members (fuel : nat) (s : str) (pairs : list (str * json))
  : dres (json * str) :=
  match fuel with
  | O => DFuel
  | S fuel' =>
      match s with
      | q :: s0 =>
          if Ascii.eqb q dq then
            match scanstring s0 [] with
            | DOk (key, s1) =>
                match skip_ws s1 with
                | c :: s2 =>
                    if Ascii.eqb c colon then
                      match scan_once fuel' (skip_ws s2) with
                      | DOk (value, s3) =>
                          let pairs := pairs ++ [(key, value)] in
                          match skip_ws s3 with
                          | d :: s4 =>
                              if Ascii.eqb d rbrace
                              then DOk (JObject (dict_of_pairs pairs), s4)
                              else if Ascii.eqb d ","
                              then object_members fuel' (skip_ws s4) pairs
                              else DError
                          | [] => DError
                          end
                      | DError => DError
                      | DBeyond => DBeyond
                      | DFuel => DFuel
                      end
                    else DError
                | [] => DError
                end
            | DError => DError
            | DBeyond => DBeyond
            | DFuel => DFuel
            end
          else DError
      | [] => DError
      end
  end

with array_elements (fuel : nat) (s : str) (values : list json)
  : dres (json * str) :=
  match fuel with
  | O => DFuel
  | S fuel' =>
      match scan_once fuel' s with
      | DOk (value, s1) =>
          let values := values ++ [value] in
          match skip_ws s1 with
          | d :: s2 =>
              if Ascii.eqb d "]" then DOk (JArray values, s2)
              else if Ascii.eqb d "," then array_elements fuel' (skip_ws s2) values
              else DError
          | [] => DError
          end
      | DError => DError
      | DBeyond => DBeyond
      | DFuel => DFuel
      end
  end.

(** [JSONDecoder.decode]: one value, white space around it, nothing else. *)
Definition json_decode (s : str) : dres json :=
  match scan_once (2 * length s + 2) (skip_ws s) with
  | DOk (v, r) =>
      match skip_ws r with
      | [] => DOk v
      | _ :: _ => DError
      end
  | DError => DError
  | DBeyond => DBeyond
  | DFuel => DFuel
  end.

Definition json_loads (s : str) : option json :=
  match json_decode s with
  | DOk v => Some v
  | _ => None
  end.

(** ** What the patterns match, stated without the matcher *)

(** [matches items s]: the items match a prefix of [s]. *)
Inductive matches : list item -> str -> Prop :=
| m_nil s : matches [] s
| m_lit c r s : matches r s -> matches (Lit c :: r) (c :: s)
| m_starG p r taken s :
    forallb p taken = true -> matches r s -> matches (StarG p :: r) (taken ++ s)
| m_plusG p r a taken s :
    p a = true -> forallb p taken = true -> matches r s ->
    matches (PlusG p :: r) (a :: taken ++ s)
| m_starL p r taken s :
    forallb p taken = true -> matches r s -> matches (StarL p :: r) (taken ++ s)
| m_open r s : matches r s -> matches (GOpen :: r) s
| m_close r s : matches r s -> matches (GClose :: r) s.

(** A text that opens a fenced block marked as JSON and closes it. *)
Definition fence_start (s : str) : Prop :=
  exists body rest, s = s_ "```json" ++ body ++ s_ "```" ++ rest.

(** A text that starts like a JSON object: an opening brace, white space,
    a quoted non-empty key, white space, a colon. *)
Definition object_start (s : str) : Prop :=
  exists ws key ws' rest,
    s = lbrace :: ws ++ dq :: key ++ dq :: ws' ++ colon :: rest /\
    forallb is_space ws = true /\
    key <> [] /\ forallb not_dq key = true /\
    forallb is_space ws' = true.

(** [P] holds of some suffix of the text. *)
Definition occurs (P : str -> Prop) (text : str) : Prop :=
  exists pre suf, text = pre ++ suf /\ P suf.

(** [pre] is where [P] first holds in [pre ++ suf]. *)
Definition first_after (P : str -> Prop) (pre suf : str) : Prop :=
  P suf /\ forall a b, pre = a ++ b -> b <> [] -> ~ P (b ++ suf).

(** ** The shape of an object the brace balancer delimits *)

(** The inside of a string literal: characters other than the quote and the
    backslash, and backslash escapes. *)
Inductive string_body : str -> Prop :=
| sb_nil : string_body []
| sb_char c s : c <> dq -> c <> bsl -> string_body s -> string_body (c :: s)
| sb_escape c s : string_body s -> string_body (bsl :: c :: s).

(** Text whose braces, outside string literals, are balanced. *)
Inductive balanced : str -> Prop :=
| bal_nil : balanced []
| bal_char c s :
    c <> dq -> c <> bsl -> c <> lbrace -> c <> rbrace ->
    balanced s -> balanced (c :: s)
| bal_string lit s :
    string_body lit -> balanced s -> balanced (dq :: lit ++ dq :: s)
| bal_braces inner s :
    balanced inner -> balanced s -> balanced (lbrace :: inner ++ rbrace :: s).

(** A brace, balanced text, the matching brace. *)
Definition object_text (body : str) : Prop :=
  exists inner, body = lbrace :: inner ++ [rbrace] /\ balanced inner.

(** [needle in s] *)
Fixpoint contains (s needle : str) : bool :=
  startswith s needle ||
  match s with
  | [] => false
  | _ :: s' => contains s' needle
  end.

(** ** Replies used as examples *)

Definition quoted (s : str) : str := dq :: s ++ [dq].

(** The object of the reply below. *)
Definition reply_object : str :=
  lbrace :: quoted (s_ "overall_score") ++ s_ ": 82, " ++
  quoted (s_ "notes") ++ s_ ": " ++ quoted (s_ "uses {braces} inside") ++
  [rbrace].

(** An object between two pieces of prose, without a fence. *)
Definition reply_with_prose : str :=
  s_ "Sure! " ++ reply_object ++ s_ " Hope that helps.".

(** A reply without anything that looks like JSON. *)
Definition reply_without_json : str := s_ "I could not analyze this.".

(** A fenced block that does not decode, followed by an object that does. *)
Definition reply_bad_fence : str :=
  s_ "```json" ++ [nl] ++ s_ "{bad" ++ [nl] ++ s_ "``` " ++
  lbrace :: quoted (s_ "a") ++ s_ ": 1}".

(** ** Successive calls of the service, and a scripted service *)

Section Calls.

Variable oracle : Type.
Variable generate_content :
  list part -> generation_config -> oracle -> result str * oracle.
Variable content_parts : list part.
Variable cfg : generation_config.

(** The outcome of the [n]-th of [n] successive identical calls, and the
    state of the service after it. *)
Fixpoint nth_call (n : nat) (o : oracle) : result str * oracle :=
  match n with
  | O => (Raise (RuntimeError msg_exhausted), o)
  | S O => generate_content content_parts cfg o
  | S n' => nth_call n' (snd (generate_content content_parts cfg o))
  end.

End Calls.

Definition is_raise (A : Type) (r : result A) : bool :=
  match r with Ok _ => false | Raise _ => true end.

(** A service that plays a script: each call consumes the next outcome, and
    fails once the script is over. *)
Definition script := list (result str).

Definition play (_ : list part) (_ : generation_config) (s : script)
  : result str * script :=
  match s with
  | r :: s' => (r, s')
  | [] => (Raise (LibraryError (s_ "service unavailable")), [])
  end.

Definition unavailable : exn := LibraryError (s_ "503 Service Unavailable").

Definition fails_twice : script :=
  [Raise unavailable; Raise unavailable; Ok (s_ "{}")].

(** The waits the retry policy would have if the wait after attempt [k]
    were [2 ^ (k - 1)]: 1, 2, 4 for attempts 1, 2, 3. *)
Definition wait_one_two_four (attempt : nat) : Z := (2 ^ Z.of_nat (attempt - 1))%Z.

(** ** Stage contents *)

(** The job description handed to the content of stages 2 and 3. *)
Definition stage_job_description (mode : analysis_mode) (job_description : str)
  : option str :=
  match mode with
  | ATS_ONLY => None
  | JOB_MATCHING => Some job_description
  end.

(** The labelled block that a non-empty job description adds to the text
    part. *)
Definition job_block (job_description : option str) : str :=
  match job_description with
  | Some (c :: j) => job_label ++ c :: j
  | _ => []
  end.

(** ** A toy document library

    An empty byte string is not a PDF; any other has one page for each
    byte, whose text is that byte as a character and whose image is its
    page number. *)

Definition toy_fitz_open (pdf_bytes : list Byte.byte) : option (list (option str)) :=
  match pdf_bytes with
  | [] => None
  | _ => Some (map (fun b => Some [ascii_of_byte b]) pdf_bytes)
  end.

Definition toy_convert_from_bytes (pdf_bytes : list Byte.byte) : option (list nat) :=
  match pdf_bytes with
  | [] => None
  | _ => Some (seq 0 (length pdf_bytes))
  end.

Definition toy_save_jpeg (page : nat) : list Byte.byte := repeat Byte.x00 page.

Definition toy_b64encode (b : list Byte.byte) : str := repeat "A"%char (length b).

Definition toy_prepare : list Byte.byte -> option str -> str -> bool -> list part :=
  prepare_vision_content toy_fitz_open toy_convert_from_bytes
                         toy_save_jpeg toy_b64encode.

(** Seven pages. *)
Definition seven_pages : list Byte.byte := repeat Byte.x41 7.

(** A response with a 4xx status. *)
Definition client_error (r : response) : Prop :=
  exists code detail, r = HTTPException code detail /\ (400 <= code < 500)%Z.

(** A handler that answers with a client error and leaves the world as it
    found it: no request to the service, no sleep. *)
Definition rejects (oracle : Type) (h : handler oracle) (w : world oracle) : Prop :=
  exists r, h w = (r, w) /\ client_error r.

(** What a chain sends: the stage-1 content one to three times at 0.1,
    then the stage-2 content at 0.2, then the stage-3 content at 0.3, the
    later stages only if the chain got that far. *)
Definition chain_log (c1 c2 c3 : list part) (n1 n2 n3 : nat)
  : list (list part * generation_config) :=
  repeat (c1, config_at (1 # 10)) n1 ++ repeat (c2, config_at (2 # 10)) n2
  ++ repeat (c3, config_at (3 # 10)) n3.

Definition chain_counts (A : Type) (r : result A) (n1 n2 n3 : nat) : Prop :=
  1 <= n1 <= 3 /\ n2 <= 3 /\ n3 <= 3 /\ (n2 = 0 -> n3 = 0) /\
  (is_raise r = false -> 1 <= n2 /\ 1 <= n3).


(** ** A toy run of the chains *)

Definition toy_dumps (_ : json) : str := s_ "{...}".

Definition toy_step1 : str := s_ "Extract.".
Definition toy_step2_job : str := s_ "Match {{FIRST_STAGE_ANALYSIS}}.".
Definition toy_step3_job : str :=
  s_ "Score {{FIRST_STAGE_ANALYSIS}} {{SECOND_STAGE_ANALYSIS}}.".
Definition toy_step2_ats : str := s_ "Check {{FIRST_STAGE_ANALYSIS}}.".
Definition toy_step3_ats : str :=
  s_ "Advise {{FIRST_STAGE_ANALYSIS}} {{SECOND_STAGE_ANALYSIS}}.".

Definition toy_analyze : analysis_mode -> list Byte.byte -> str -> M script dict :=
  analyze toy_fitz_open toy_convert_from_bytes toy_save_jpeg toy_b64encode
          json_loads toy_dumps play
          toy_step1 toy_step2_job toy_step3_job toy_step2_ats toy_step3_ats.

(** A stage-3 reply with a private key. *)
Definition reply_with_debug : str :=
  lbrace :: quoted (s_ "overall_score") ++ s_ ": 82, " ++
  quoted (s_ "_debug") ++ s_ ": " ++ quoted (s_ "x") ++ [rbrace].

Definition reply_small : str := lbrace :: quoted (s_ "a") ++ s_ ": 1}".

Definition three_replies : script :=
  [Ok reply_small; Ok reply_small; Ok reply_with_debug].

(** The text part as it would be if every present job description, the
    empty one too, added its labelled block. *)
Definition text_with_block (prompt excerpt : str) (job_description : option str)
  : str :=
  prompt ++ resume_label ++ excerpt ++ ellipsis ++
  match job_description with
  | Some j => job_label ++ j
  | None => []
  end.

(** A character that is neither a quote, nor a backslash, nor a brace:
    the balancer passes over it. *)
Definition is_plain (c : ascii) : bool :=
  negb (Ascii.eqb c dq) && negb (Ascii.eqb c bsl) &&
  negb (Ascii.eqb c lbrace) && negb (Ascii.eqb c rbrace).

(** ** Objects that are never closed *)

(** The inside of a string literal, possibly ending in a backslash that
    escapes nothing. *)
Inductive string_tail : str -> Prop :=
| st_body lit : string_body lit -> string_tail lit
| st_dangling lit : string_body lit -> string_tail (lit ++ [bsl]).

(** Text that leaves a brace open: balanced text, then nothing, or a string
    literal that is not closed, or a brace whose own text is left open. *)
Inductive unclosed : str -> Prop :=
| un_end inner : balanced inner -> unclosed inner
| un_string inner lit :
    balanced inner -> string_tail lit -> unclosed (inner ++ dq :: lit)
| un_brace inner rest :
    balanced inner -> unclosed rest -> unclosed (inner ++ lbrace :: rest).

(** The first and the last character of a text are not white space. *)
Definition trimmed (s : str) : Prop :=
  (forall c r, s = c :: r -> is_space c = false) /\
  (forall r c, s = r ++ [c] -> is_space c = false).

(** A reply cut in the middle of a string literal. *)
Definition reply_cut_short : str :=
  s_ "Sure! " ++ lbrace :: quoted (s_ "notes") ++ s_ ": " ++
  dq :: s_ "uses {braces".

(** A reply whose object is in a fenced block, with white space around it. *)
Definition reply_fenced : str :=
  s_ "Here you go:" ++ [nl] ++ s_ "```json" ++ [nl] ++
  (lbrace :: quoted (s_ "a") ++ s_ ": 1}") ++ [nl] ++ s_ "```" ++ [nl] ++
  s_ "Thanks".

(** ** The cost of a run *)

Definition total (l : list Z) : Z := fold_right Z.add 0%Z l.

(** Between [w] and [w'] at most [calls] requests were sent and at most
    [wait] was slept, in sleeps of 2 or 4. *)
Definition costs (oracle : Type) (w w' : world oracle) (calls : nat) (wait : Z)
  : Prop :=
  exists reqs sl,
    w_requests w' = w_requests w ++ reqs /\ length reqs <= calls /\
    w_slept w' = w_slept w ++ sl /\
    Forall (fun d => d = 2%Z \/ d = 4%Z) sl /\ (total sl <= wait)%Z.

(** Two failures, then the three replies of a chain. *)
Definition slow_start : script :=
  Raise unavailable :: Raise unavailable :: three_replies.

(** A first reply without JSON. *)
Definition no_json_reply : script := [Ok reply_without_json].

(** ** The dashboard: the helpers of [st_app.py]

    The report that the dashboard receives is the JSON value the API
    returned.  The scores handled here are Python integers. *)

(** [c.lower()] on the 8-bit alphabet: the letters A to Z and the capital
    letters of Latin-1. *)
Definition lower_char (c : ascii) : ascii :=
  let n := nat_of_ascii c in
  if ((65 <=? n) && (n <=? 90)) ||
     ((192 <=? n) && (n <=? 222) && negb (n =? 215))
  then ascii_of_nat (n + 32) else c.

(** [s.lower()] *)
Definition lower (s : str) : str := map lower_char s.

(** [c.upper()] when the result is one character of the 8-bit alphabet;
    the capitals of [y] with diaeresis, of the micro sign and of the sharp s
    are not. *)
Definition upper_char (c : ascii) : option ascii :=
  let n := nat_of_ascii c in
  if (n =? 255) || (n =? 181) || (n =? 223) then None
  else if ((97 <=? n) && (n <=? 122)) ||
          ((224 <=? n) && (n <=? 254) && negb (n =? 247))
       then Some (ascii_of_nat (n - 32)) else Some c.

(** [s.capitalize()] *)
Definition capitalize (s : str) : option str :=
  match s with
  | [] => Some []
  | c :: r =>
      match upper_char c with
      | Some u => Some (u :: lower r)
      | None => None
      end
  end.

Definition get_score_class (score : Z) : str :=
  if (score >=? 80)%Z then s_ "score-high"
  else if (score >=? 60)%Z then s_ "score-medium"
  else s_ "score-low".

Definition get_issue_class (severity : str) : str :=
  if str_eqb (lower severity) (s_ "error")
     || str_eqb (lower severity) (s_ "high") then s_ "issue-high"
  else if str_eqb (lower severity) (s_ "warning")
          || str_eqb (lower severity) (s_ "medium") then s_ "issue-medium"
  else s_ "issue-low".

(** The exceptions of the operations on JSON values below. *)
Inductive py_error : Type :=
| KeyError (key : str)
| TypeError
| NoAttribute (name : str).

Inductive outcome (A : Type) : Type :=
| Done (a : A)
| Fails (e : py_error).

Arguments Done {A} a.
Arguments Fails {A} e.

Definition and_then (A B : Type) (m : outcome A) (f : A -> outcome B)
  : outcome B :=
  match m with
  | Done a => f a
  | Fails e => Fails e
  end.

(** [for x in v]: the elements of a list, the keys of a dict, the
    characters of a string; nothing else can be iterated. *)
Definition py_iter (v : json) : outcome (list json) :=
  match v with
  | JArray l => Done l
  | JObject d => Done (map (fun kv => JString (fst kv)) d)
  | JString s => Done (map (fun c => JString [c]) s)
  | _ => Fails TypeError
  end.

(** [v.get(key, default)]: only a dict has [get]. *)
Definition py_get (v : json) (key : str) (default : json) : outcome json :=
  match v with
  | JObject d =>
      Done (match dict_get d key with Some x => x | None => default end)
  | _ => Fails (NoAttribute (s_ "get"))
  end.

(** [v[key]] for a string [key]: the value of a dict, [KeyError] when the
    key is missing, [TypeError] on anything else. *)
Definition py_item (v : json) (key : str) : outcome json :=
  match v with
  | JObject d =>
      match dict_get d key with
      | Some x => Done x
      | None => Fails (KeyError key)
      end
  | _ => Fails TypeError
  end.

(** [v.lower()]: only a string has [lower]. *)
Definition py_lower (v : json) : outcome str :=
  match v with
  | JString s => Done (lower s)
  | _ => Fails (NoAttribute (s_ "lower"))
  end.

(** The counts of [issue_counts]: high, medium, low. *)
Record issue_counts : Type := IssueCounts {
  count_high : nat;
  count_medium : nat;
  count_low : nat
}.

(** The body of the inner loop of the summary of [display_results]. *)
Definition count_issue (counts : issue_counts) (issue : json)
  : outcome issue_counts :=
  and_then (py_get issue (s_ "severity") (JString (s_ "medium")))
    (fun value =>
  and_then (py_lower value)
    (fun severity =>
  if str_eqb severity (s_ "error") || str_eqb severity (s_ "high") then
    Done (IssueCounts (count_high counts + 1) (count_medium counts)
                      (count_low counts))
  else if str_eqb severity (s_ "warning") || str_eqb severity (s_ "medium") then
    Done (IssueCounts (count_high counts) (count_medium counts + 1)
                      (count_low counts))
  else
    Done (IssueCounts (count_high counts) (count_medium counts)
                      (count_low counts + 1)))).

(** A [for] loop over a list with a body that can raise. *)
Fixpoint for_each (A S : Type) (body : S -> A -> outcome S) (l : list A)
    (s : S) : outcome S :=
  match l with
  | [] => Done s
  | x :: l' => and_then (body s x) (for_each body l')
  end.

(** The body of the outer loop. *)
Definition count_category (counts : issue_counts) (category : json)
  : outcome issue_counts :=
  and_then (py_get category (s_ "issues") (JArray []))
    (fun issues =>
  and_then (py_iter issues)
    (fun issues => for_each count_issue issues counts)).

(** The summary of [display_results]: the issues of every category of
    [results], counted by severity. *)
Definition summary_counts (results : json) : outcome issue_counts :=
  and_then (py_item results (s_ "categories"))
    (fun categories =>
  and_then (py_iter categories)
    (fun categories =>
       for_each count_category categories (IssueCounts 0 0 0))).

(** A value that can be the key of a dict. *)
Definition hashable (v : json) : bool :=
  match v with
  | JArray _ | JObject _ => false
  | _ => true
  end.

(** One step of the comprehension that builds [categories_dict]: the key,
    then the value, then the insertion.  A key that is not a string is
    never looked up, and is not kept. *)
Definition radar_entry (d : dict) (cat : json) : outcome dict :=
  and_then (py_item cat (s_ "category"))
    (fun key =>
  and_then (py_item cat (s_ "score"))
    (fun value =>
  if hashable key then
    Done (match key with
          | JString name => dict_set d name value
          | _ => d
          end)
  else Fails TypeError)).

Definition radar_categories : list str :=
  [s_ "content"; s_ "format"; s_ "sections"; s_ "skills"; s_ "style"].

(** All the labels, when each can be capitalized. *)
Fixpoint capitalize_all (l : list str) : option (list str) :=
  match l with
  | [] => Some []
  | s :: l' =>
      match capitalize s, capitalize_all l' with
      | Some c, Some r => Some (c :: r)
      | _, _ => None
      end
  end.

(** The data of [create_radar_chart]: the values [r] and the labels
    [theta] handed to the polar plot. *)
Definition radar_data (categories : json)
  : outcome (list json * option (list str)) :=
  and_then (py_iter categories)
    (fun cats =>
  and_then (for_each radar_entry cats [])
    (fun categories_dict =>
       let categories_list := radar_categories in
       let values :=
         map (fun cat => match dict_get categories_dict cat with
                         | Some v => v
                         | None => JInt 0
                         end) categories_list in
       let categories_list := categories_list ++ [hd [] categories_list] in
       let values := values ++ [hd JNull values] in
       Done (values, capitalize_all categories_list))).

(** What the summary counts, stated on the report itself. *)

(** The elements a loop goes through; none when the value cannot be
    iterated. *)
Definition iter_items (v : json) : list json :=
  match py_iter v with
  | Done l => l
  | Fails _ => []
  end.

(** The value under a key of an object, or a default. *)
Definition value_or (v : json) (key : str) (default : json) : json :=
  match v with
  | JObject d => match dict_get d key with Some x => x | None => default end
  | _ => default
  end.

(** All the issues that the categories of a report list, category after
    category, whatever the [issues_found] of the category: the summary, unlike
    the detailed view, does not look at [issues_found]. *)
Definition all_issues (results : json) : list json :=
  flat_map (fun category => iter_items (value_or category (s_ "issues") (JArray [])))
           (iter_items (value_or results (s_ "categories") (JArray []))).

(** The class that [get_issue_class] gives to the severity of an issue,
    taken in lower case, and to [medium] for an issue without severity.
    (On a severity that is not a string the summary raises; the class given
    here for it plays no part.) *)
Definition severity_class (issue : json) : str :=
  match value_or issue (s_ "severity") (JString (s_ "medium")) with
  | JString s => get_issue_class (lower s)
  | _ => get_issue_class (s_ "medium")
  end.

Definition count_class (class : str) (issues : list json) : nat :=
  length (filter (fun i => str_eqb (severity_class i) class) issues).

(** The category entries of a report that have a name and a score. *)
Definition named_scores (cats : list json) : list (str * json) :=
  flat_map (fun cat =>
              match cat with
              | JObject d =>
                  match dict_get d (s_ "category"), dict_get d (s_ "score") with
                  | Some (JString name), Some v => [(name, v)]
                  | _, _ => []
                  end
              | _ => []
              end) cats.

(** The score of the last entry with a name, 0 when there is none. *)
Definition last_score (name : str) (entries : list (str * json)) : json :=
  match find (fun kv => str_eqb (fst kv) name) (rev entries) with
  | Some kv => snd kv
  | None => JInt 0
  end.

(** A report with a category given twice and two categories missing. *)
Definition sample_categories : json :=
  JArray [JObject [(s_ "category", JString (s_ "content")); (s_ "score", JInt 70)];
          JObject [(s_ "category", JString (s_ "skills")); (s_ "score", JInt 55)];
          JObject [(s_ "category", JString (s_ "content")); (s_ "score", JInt 90)];
          JObject [(s_ "category", JString (s_ "style")); (s_ "score", JInt 40)]].

(** A report with three issues, one without severity; the category of the
    first two says that it has no issue. *)
Definition sample_results : json :=
  JObject [(s_ "categories",
     JArray [JObject [(s_ "category", JString (s_ "content"));
                      (s_ "issues_found", JInt 0);
                      (s_ "issues",
                       JArray [JObject [(s_ "message", JString (s_ "m1"));
                                        (s_ "severity", JString (s_ "Error"))];
                               JObject [(s_ "message", JString (s_ "m2"))]])];
             JObject [(s_ "category", JString (s_ "style"))];
             JObject [(s_ "category", JString (s_ "skills"));
                      (s_ "issues_found", JInt 1);
                      (s_ "issues",
                       JArray [JObject [(s_ "severity", JString (s_ "info"))]])]])].

(** ** Replies that hold an object and are not parsed *)

(** An empty object between two pieces of prose. *)
Definition reply_with_empty_object : str := s_ "Sure! {} Hope that helps.".

(** An object whose first key is the empty string. *)
Definition reply_with_empty_key : str :=
  s_ "Sure! " ++ lbrace :: quoted ([] : str) ++ s_ ": 1} ok".

(** Prose with braces of its own before the object. *)
Definition reply_with_draft : str :=
  s_ "I wrote " ++ lbrace :: quoted (s_ "draft") ++
  s_ ": yes} first. Final: " ++ reply_small.

(** ** A toy serializer

    It raises on the three lexemes that stand for a float that is not a
    finite number, and gives a fixed body otherwise. *)

Definition finite_lexeme (lexeme : str) : bool :=
  negb (str_eqb lexeme (s_ "NaN") || str_eqb lexeme (s_ "Infinity")
        || str_eqb lexeme (s_ "-Infinity")).

Fixpoint finite_floats (v : json) : bool :=
  match v with
  | JFloat lexeme => finite_lexeme lexeme
  | JArray l => forallb finite_floats l
  | JObject d =>
      forallb (fun kv : str * json => let (_, x) := kv in finite_floats x) d
  | _ => true
  end.

Definition msg_out_of_range : str :=
  s_ "Out of range float values are not JSON compliant".

Definition toy_render (content : dict) : result str :=
  if finite_floats (JObject content) then Ok (s_ "{...}")
  else Raise (ValueError msg_out_of_range).

(** A stage-3 reply with a score that is not a number. *)
Definition reply_with_nan : str :=
  lbrace :: quoted (s_ "overall_score") ++ s_ ": NaN}".

Definition nan_replies : script :=
  [Ok reply_small; Ok reply_small; Ok reply_with_nan].

(** ** The replies to the requests of a run

    The service is called only to send the requests that the world logs,
    in their order: sending them again from the same state of the service
    gives the replies that the run received, and the state it left. *)
Fixpoint replay (oracle : Type)
    (generate_content :
       list part -> generation_config -> oracle -> result str * oracle)
    (o : oracle) (requests : list (list part * generation_config))
  : list (result str) * oracle :=
  match requests with
  | [] => ([], o)
  | (content, cfg) :: rest =>
      let (r, o1) := generate_content content cfg o in
      let (rs, o2) := replay generate_content o1 rest in
      (r :: rs, o2)
  end.

(** * Properties *)

(** ** Text *)

Lemma startswith_app (p r : str) : startswith (p ++ r) p = true.
Proof.
  induction p as [|c p IH]; simpl; [reflexivity|].
  now rewrite Ascii.eqb_refl.
Qed.

Lemma startswith_inv (s p : str) :
  startswith s p = true -> exists r, s = p ++ r.
Proof.
  revert s; induction p as [|c p IH]; intros s Hs.
  - now exists s.
  - destruct s as [|a s]; simpl in Hs; [discriminate|].
    apply andb_true_iff in Hs as [Hc Hr].
    apply Ascii.eqb_eq in Hc; subst a.
    destruct (IH _ Hr) as [r ->]. now exists r.
Qed.

Lemma endswith_inv (s p : str) :
  endswith s p = true -> exists a, s = a ++ p.
Proof.
  unfold endswith; intros Hs.
  apply andb_true_iff in Hs as [Hl Hr].
  apply Nat.leb_le in Hl.
  destruct (startswith_inv _ _ Hr) as [r Hr'].
  assert (r = []) as ->.
  { apply (f_equal (@length ascii)) in Hr'.
    rewrite length_skipn, length_app in Hr'.
    destruct r; [reflexivity | simpl in Hr'; lia]. }
  rewrite app_nil_r in Hr'.
  exists (firstn (length s - length p) s).
  pose proof (firstn_skipn (length s - length p) s) as E.
  rewrite Hr' in E. now symmetry.
Qed.

Lemma endswith_app (a p : str) : endswith (a ++ p) p = true.
Proof.
  unfold endswith. rewrite length_app.
  apply andb_true_iff; split; [apply Nat.leb_le; lia|].
  replace (length a + length p - length p) with (length a + 0) by lia.
  rewrite skipn_app, Nat.add_0_r, skipn_all.
  replace (length a - length a) with 0 by lia; simpl.
  rewrite <- (app_nil_r p) at 1. apply startswith_app.
Qed.

Lemma lstrip_blank (s : str) : forallb is_space s = true -> lstrip s = [].
Proof.
  induction s as [|c s IH]; simpl; [reflexivity|].
  intros Hs. apply andb_true_iff in Hs as [Hc Hs]. rewrite Hc. auto.
Qed.

Lemma lstrip_nil_inv (s : str) : lstrip s = [] -> forallb is_space s = true.
Proof.
  induction s as [|c s IH]; simpl; [reflexivity|].
  destruct (is_space c); [auto | discriminate].
Qed.

Lemma lstrip_head (s : str) c r : lstrip s = c :: r -> is_space c = false.
Proof.
  induction s as [|a s IH]; simpl; [discriminate|].
  destruct (is_space a) eqn:Ea; [assumption|].
  intros E; now inversion E; subst.
Qed.

Lemma lstrip_keeps (t u : str) c :
  is_space c = false -> lstrip (t ++ c :: u) <> [].
Proof.
  intros Hc. induction t as [|a t IH]; simpl.
  - now rewrite Hc.
  - now destruct (is_space a).
Qed.

Lemma strip_blank_iff (s : str) :
  strip s = [] <-> forallb is_space s = true.
Proof.
  unfold strip, rstrip; split; intros Hs.
  - apply lstrip_nil_inv.
    destruct (lstrip s) as [|c r] eqn:E; [reflexivity|exfalso].
    apply lstrip_head in E.
    apply (f_equal (@rev ascii)) in Hs.
    rewrite rev_involutive in Hs; simpl in Hs.
    now apply (@lstrip_keeps (rev r) [] c E).
  - now rewrite (lstrip_blank _ Hs).
Qed.

(** ** The matcher *)

Section MatcherFacts.

Variable k : str -> nat -> span -> option (nat * span).
Variable p : ascii -> bool.

Lemma star_greedy_sound s i g m :
  star_greedy k p s i g = Some m ->
  exists taken rest i',
    s = taken ++ rest /\ forallb p taken = true /\ k rest i' g = Some m.
Proof.
  revert i; induction s as [|a s IH]; intros i Hm; simpl in Hm.
  - now exists [], [], i.
  - destruct (p a) eqn:Ha.
    + destruct (star_greedy k p s (S i) g) as [m'|] eqn:E.
      * inversion Hm; subst m'.
        destruct (IH _ E) as (t & r & i' & -> & Ht & Hk).
        exists (a :: t), r, i'; simpl; rewrite Ha; auto.
      * now exists [], (a :: s), i.
    + now exists [], (a :: s), i.
Qed.

Lemma star_greedy_base s i g :
  k s i g <> None -> star_greedy k p s i g <> None.
Proof.
  intros Hk. destruct s as [|a s]; simpl; [assumption|].
  destruct (p a); [|assumption].
  now destruct (star_greedy k p s (S i) g).
Qed.

Lemma star_greedy_complete taken rest i g :
  forallb p taken = true ->
  k rest (i + length taken) g <> None ->
  star_greedy k p (taken ++ rest) i g <> None.
Proof.
  revert i; induction taken as [|a t IH]; intros i Ht Hk.
  - simpl in *. rewrite Nat.add_0_r in Hk. now apply star_greedy_base.
  - simpl in Ht. apply andb_true_iff in Ht as [Ha Ht].
    simpl. rewrite Ha.
    specialize (IH (S i) Ht).
    replace (S i + length t) with (i + length (a :: t)) in IH by (simpl; lia).
    specialize (IH Hk).
    now destruct (star_greedy k p (t ++ rest) (S i) g).
Qed.

Lemma star_lazy_sound s i g m :
  star_lazy k p s i g = Some m ->
  exists taken rest i',
    s = taken ++ rest /\ forallb p taken = true /\ k rest i' g = Some m.
Proof.
  revert i; induction s as [|a s IH]; intros i Hm; simpl in Hm.
  - destruct (k [] i g) eqn:E; [|discriminate].
    inversion Hm; subst. now exists [], [], i.
  - destruct (k (a :: s) i g) eqn:E.
    + inversion Hm; subst. now exists [], (a :: s), i.
    + destruct (p a) eqn:Ha; [|discriminate].
      destruct (IH _ Hm) as (t & r & i' & -> & Ht & Hk).
      exists (a :: t), r, i'; simpl; rewrite Ha; auto.
Qed.

Lemma star_lazy_complete taken rest i g :
  forallb p taken = true ->
  k rest (i + length taken) g <> None ->
  star_lazy k p (taken ++ rest) i g <> None.
Proof.
  revert i; induction taken as [|a t IH]; intros i Ht Hk.
  - simpl in *. rewrite Nat.add_0_r in Hk.
    destruct rest; simpl; now destruct (k _ i g).
  - simpl in Ht. apply andb_true_iff in Ht as [Ha Ht].
    simpl. destruct (k (a :: t ++ rest) i g); [discriminate|].
    rewrite Ha. apply IH; [assumption|].
    now replace (S i + length t) with (i + length (a :: t)) by (simpl; lia).
Qed.

End MatcherFacts.

Lemma match_here_sound items : forall s i g m,
  match_here items s i g = Some m -> matches items s.
Proof.
  induction items as [|it r IH]; intros s i g m Hm.
  - constructor.
  - destruct it; simpl in Hm.
    + destruct s as [|a s]; [discriminate|].
      destruct (Ascii.eqb_spec a c); [subst|discriminate].
      constructor; eauto.
    + apply star_greedy_sound in Hm as (t & rest & i' & -> & Ht & Hk).
      constructor; eauto.
    + destruct s as [|a s]; [discriminate|].
      destruct (p a) eqn:Ha; [|discriminate].
      apply star_greedy_sound in Hm as (t & rest & i' & -> & Ht & Hk).
      constructor; eauto.
    + apply star_lazy_sound in Hm as (t & rest & i' & -> & Ht & Hk).
      constructor; eauto.
    + constructor; eauto.
    + constructor; eauto.
Qed.

Lemma match_here_complete items s :
  matches items s -> forall i g, match_here items s i g <> None.
Proof.
  induction 1 as [s|c r s _ IH|p r t s Ht _ IH|p r a t s Ha Ht _ IH
                  |p r t s Ht _ IH|r s _ IH|r s _ IH]; intros i g; simpl.
  - discriminate.
  - rewrite Ascii.eqb_refl. apply IH.
  - apply star_greedy_complete; auto.
  - rewrite Ha. apply star_greedy_complete; auto.
  - apply star_lazy_complete; auto.
  - apply IH.
  - apply IH.
Qed.

Lemma search_from_none items s : forall i,
  (forall pre suf, s = pre ++ suf -> ~ matches items suf) ->
  search_from items s i = None.
Proof.
  induction s as [|a s IH]; intros i Hno; simpl.
  - destruct (match_here items [] i (Span 0 0)) as [[e g]|] eqn:E; [|reflexivity].
    exfalso. apply (Hno [] [] eq_refl). eapply match_here_sound; eauto.
  - destruct (match_here items (a :: s) i (Span 0 0)) as [[e g]|] eqn:E.
    + exfalso. apply (Hno [] (a :: s) eq_refl). eapply match_here_sound; eauto.
    + apply IH. intros pre suf ->. apply (Hno (a :: pre) suf eq_refl).
Qed.

Lemma search_from_found items s : forall i m,
  search_from items s i = Some m ->
  exists pre suf,
    s = pre ++ suf /\ m_start m = i + length pre /\
    match_here items suf (m_start m) (Span 0 0) = Some (m_end m, m_group1 m).
Proof.
  induction s as [|a s IH]; intros i m Hm; simpl in Hm.
  - destruct (match_here items [] i (Span 0 0)) as [[e g]|] eqn:E; [|discriminate].
    inversion Hm; subst; simpl. exists [], []; simpl. now rewrite Nat.add_0_r.
  - destruct (match_here items (a :: s) i (Span 0 0)) as [[e g]|] eqn:E.
    + inversion Hm; subst; simpl. exists [], (a :: s); simpl.
      now rewrite Nat.add_0_r.
    + destruct (IH _ _ Hm) as (pre & suf & -> & Hs & Hk).
      exists (a :: pre), suf; simpl. split; [reflexivity|]. split; [lia|assumption].
Qed.

Lemma search_from_first items pre : forall suf i,
  first_after (matches items) pre suf ->
  exists m, search_from items (pre ++ suf) i = Some m /\
            m_start m = i + length pre.
Proof.
  induction pre as [|a pre IH]; intros suf i [Hs Hno].
  - simpl. pose proof (match_here_complete Hs i (Span 0 0)) as Hc.
    destruct suf; simpl;
      (destruct (match_here items _ i (Span 0 0)) as [[e g]|]; [|congruence]);
      eexists; split; try reflexivity; simpl; lia.
  - simpl.
    destruct (match_here items (a :: pre ++ suf) i (Span 0 0)) as [[e g]|] eqn:E.
    + exfalso. apply (Hno [] (a :: pre) eq_refl); [discriminate|].
      eapply match_here_sound; eauto.
    + destruct (IH suf (S i)) as (m & Hm & Hst).
      { split; [assumption|]. intros x y -> Hy. apply (Hno (a :: x) y eq_refl Hy). }
      exists m; split; [assumption | lia].
Qed.

Lemma re_search_none items text :
  ~ occurs (matches items) text -> re_search items text = None.
Proof.
  intros Hno. apply search_from_none.
  intros pre suf -> Hm. apply Hno. now exists pre, suf.
Qed.

Lemma re_search_some items text m :
  re_search items text = Some m -> occurs (matches items) text.
Proof.
  intros Hm. apply search_from_found in Hm as (pre & suf & -> & _ & Hk).
  exists pre, suf; split; [reflexivity|]. eapply match_here_sound; eauto.
Qed.

Lemma re_search_occurs items text :
  occurs (matches items) text -> re_search items text <> None.
Proof.
  intros Ho Hn. destruct Ho as (pre & suf & -> & Hm).
  revert Hn. unfold re_search. generalize 0.
  induction pre as [|a pre IH]; intros i; simpl.
  - pose proof (match_here_complete Hm i (Span 0 0)).
    destruct suf; simpl; destruct (match_here items _ i (Span 0 0)) as [[e g]|];
      congruence.
  - destruct (match_here items (a :: pre ++ suf) i (Span 0 0)) as [[e g]|];
      [discriminate | apply IH].
Qed.

(** The two patterns of the parser. *)

Lemma matches_fence (s : str) : matches fence_re s <-> fence_start s.
Proof.
  unfold fence_re, lits; simpl. split.
  - intros Hm.
    repeat match goal with
           | H : matches (_ :: _) _ |- _ => inversion H; clear H; subst
           end.
    match goal with
    | |- fence_start (_ :: _ :: _ :: _ :: _ :: _ :: _ :: ?t1 ++ ?t2 ++ ?t3 ++ _ :: _ :: _ :: ?r) =>
        exists (t1 ++ t2 ++ t3), r
    end.
    simpl. now rewrite <- !app_assoc.
  - intros (body & rest & ->). simpl.
    do 7 constructor.
    apply (@m_starG is_space _ [] _ eq_refl); simpl.
    constructor. apply m_starL; [apply forallb_forall; reflexivity|].
    constructor. apply (@m_starG is_space _ [] _ eq_refl); simpl.
    do 4 constructor.
Qed.

Lemma matches_object (s : str) : matches object_re s <-> object_start s.
Proof.
  unfold object_re. split.
  - intros Hm.
    repeat match goal with
           | H : matches (_ :: _) _ |- _ => inversion H; clear H; subst
           end.
    match goal with
    | |- object_start (_ :: ?ws ++ _ :: ?a :: ?key ++ _ :: ?ws' ++ _ :: ?r) =>
        exists ws, (a :: key), ws', r
    end.
    repeat split; try assumption; try discriminate.
    simpl. apply andb_true_iff; auto.
  - intros (ws & key & ws' & rest & -> & Hws & Hk & Hkey & Hws').
    destruct key as [|a key]; [congruence|].
    simpl in Hkey. apply andb_true_iff in Hkey as [Ha Hkey].
    constructor. apply m_starG; [assumption|].
    constructor. apply m_plusG; [assumption..|].
    constructor. apply m_starG; [assumption|].
    do 2 constructor.
Qed.

(** ** The brace balancer *)

Lemma eqb_neq_false (c d : ascii) : c <> d -> Ascii.eqb c d = false.
Proof. intros; now apply Ascii.eqb_neq. Qed.

Lemma balance_string_body lit :
  string_body lit ->
  forall k i d e,
    balance_braces (lit ++ dq :: k) i d true false e =
    balance_braces k (i + length lit + 1) d false false e.
Proof.
  induction 1 as [|c s Hq Hb _ IH|c s _ IH]; intros k i d e.
  - simpl. f_equal. lia.
  - simpl. rewrite (eqb_neq_false Hb), (eqb_neq_false Hq); simpl.
    rewrite IH. f_equal. lia.
  - simpl. rewrite IH. f_equal. lia.
Qed.

Lemma balance_balanced s :
  balanced s ->
  forall k i d e, (0 < d)%Z ->
    balance_braces (s ++ k) i d false false e =
    balance_braces k (i + length s) d false false e.
Proof.
  induction 1 as [|c s Hq Hb Hl Hr _ IH|lit s Hlit _ IH
                  |inner s _ IHi _ IHs]; intros k i d e Hd.
  - simpl. f_equal. lia.
  - simpl.
    rewrite (eqb_neq_false Hb), (eqb_neq_false Hq),
            (eqb_neq_false Hl), (eqb_neq_false Hr); simpl.
    rewrite IH by assumption. f_equal. lia.
  - simpl. rewrite <- app_assoc. simpl.
    rewrite balance_string_body by assumption.
    rewrite IH by assumption. f_equal.
    simpl. rewrite length_app. simpl. lia.
  - simpl. rewrite <- app_assoc. rewrite IHi by lia. simpl.
    replace (d + 1 - 1 =? 0)%Z with false by (symmetry; apply Z.eqb_neq; lia).
    replace (d + 1 - 1)%Z with d by lia.
    rewrite IHs by assumption. f_equal.
    rewrite length_app. simpl. lia.
Qed.

Lemma balance_object inner post i e :
  balanced inner ->
  balance_braces (lbrace :: inner ++ rbrace :: post) i 0 false false e =
  i + length inner + 2.
Proof.
  intros Hb. simpl. rewrite balance_balanced by (assumption || lia).
  simpl. lia.
Qed.

Lemma slice_middle (pre body post : str) :
  slice (pre ++ body ++ post) (length pre) (length pre + length body) = body.
Proof.
  unfold slice.
  replace (length pre + length body - length pre) with (length body) by lia.
  rewrite skipn_app, skipn_all, Nat.sub_diag; simpl.
  rewrite firstn_app, firstn_all, Nat.sub_diag; simpl.
  apply app_nil_r.
Qed.

Lemma skipn_prefix (pre rest : str) : skipn (length pre) (pre ++ rest) = rest.
Proof.
  rewrite skipn_app, skipn_all, Nat.sub_diag. reflexivity.
Qed.

Lemma balanced_app (s t : str) : balanced s -> balanced t -> balanced (s ++ t).
Proof.
  induction 1; intros Ht; simpl; try assumption.
  - apply bal_char; auto.
  - rewrite <- app_assoc. simpl. apply bal_string; auto.
  - rewrite <- app_assoc. simpl. apply bal_braces; auto.
Qed.

(** ** Every text the decoder reads as an object is an object text *)

Lemma is_plain_spec (c : ascii) :
  is_plain c = true -> c <> dq /\ c <> bsl /\ c <> lbrace /\ c <> rbrace.
Proof.
  unfold is_plain. intros H.
  repeat (apply andb_true_iff in H as [H ?]).
  repeat split; apply Ascii.eqb_neq; now apply negb_true_iff.
Qed.

Lemma balanced_plain (s : str) : forallb is_plain s = true -> balanced s.
Proof.
  induction s as [|c s IH]; simpl; intros H; [constructor|].
  apply andb_true_iff in H as [Hc Hs].
  destruct (is_plain_spec _ Hc) as (? & ? & ? & ?).
  apply bal_char; auto.
Qed.

Lemma json_ws_plain (c : ascii) : is_json_ws c = true -> is_plain c = true.
Proof.
  destruct c as [[] [] [] [] [] [] [] []]; vm_compute; congruence.
Qed.

Lemma digit_plain (c : ascii) : is_digit c = true -> is_plain c = true.
Proof.
  destruct c as [[] [] [] [] [] [] [] []]; vm_compute; congruence.
Qed.

Lemma hex_plain (c : ascii) n : hex_value c = Some n -> is_plain c = true.
Proof.
  destruct c as [[] [] [] [] [] [] [] []]; vm_compute; congruence.
Qed.

Lemma skip_ws_split (s : str) :
  exists ws, s = ws ++ skip_ws s /\ forallb is_plain ws = true.
Proof.
  induction s as [|c s (ws & Hs & Hws)]; simpl.
  - now exists [].
  - destruct (is_json_ws c) eqn:Hc.
    + exists (c :: ws); simpl. rewrite <- Hs, (json_ws_plain _ Hc). auto.
    + now exists [].
Qed.

Lemma span_digits_split (s : str) d r :
  span_digits s = (d, r) -> s = d ++ r /\ forallb is_plain d = true.
Proof.
  revert d r; induction s as [|c s IH]; simpl; intros d r H.
  - inversion H; auto.
  - destruct (is_digit c) eqn:Hc.
    + destruct (span_digits s) as [d' r'] eqn:E. inversion H; subst.
      destruct (IH _ _ eq_refl) as [-> Hd].
      simpl. now rewrite (digit_plain _ Hc).
    + inversion H; auto.
Qed.

Lemma drop_prefix_split (p s r : str) : drop_prefix p s = Some r -> s = p ++ r.
Proof.
  revert s; induction p as [|c p IH]; simpl; intros s H.
  - congruence.
  - destruct s as [|a s]; [discriminate|].
    destruct (Ascii.eqb_spec a c); [subst|discriminate].
    now rewrite (IH _ H).
Qed.

Lemma scanstring_split n : forall s acc v r,
  length s <= n ->
  scanstring s acc = DOk (v, r) ->
  exists lit, s = lit ++ dq :: r /\ string_body lit.
Proof.
  induction n as [|n IH]; intros s acc v r Hlen H.
  - destruct s; [discriminate | simpl in Hlen; lia].
  - destruct s as [|c s]; [discriminate|]. simpl in Hlen.
    cbn [scanstring] in H.
    destruct (Ascii.eqb_spec c dq) as [->|Hq].
    { inversion H; subst. exists []. split; [reflexivity | constructor]. }
    destruct (Ascii.eqb_spec c bsl) as [->|Hb].
    + destruct s as [|e s]; [discriminate|]. simpl in Hlen.
      assert (Hesc : forall x, scanstring s (x :: acc) = DOk (v, r) ->
                exists lit, bsl :: e :: s = lit ++ dq :: r /\ string_body lit).
      { intros x Hx. destruct (IH s _ _ _ ltac:(lia) Hx) as (lit & -> & Hl).
        exists (bsl :: e :: lit). split; [reflexivity | now constructor]. }
      repeat match type of H with
             | (if Ascii.eqb e ?x then _ else _) = _ =>
                 destruct (Ascii.eqb e x) eqn:?; [now apply Hesc in H|]
             end.
      destruct (Ascii.eqb e "u"); [|discriminate].
      destruct s as [|h1 [|h2 [|h3 [|h4 s]]]]; try discriminate.
      destruct (hex_value h1) eqn:E1; [|discriminate].
      destruct (hex_value h2) eqn:E2; [|discriminate].
      destruct (hex_value h3) eqn:E3; [|discriminate].
      destruct (hex_value h4) eqn:E4; [|discriminate].
      match type of H with
      | (if ?b then _ else _) = _ => destruct b; [|discriminate]
      end.
      simpl in Hlen.
      destruct (IH s _ _ _ ltac:(lia) H) as (lit & -> & Hl).
      exists (bsl :: e :: h1 :: h2 :: h3 :: h4 :: lit).
      split; [reflexivity|].
      apply sb_escape.
      repeat (apply sb_char;
              [eapply is_plain_spec, hex_plain; eassumption
              |eapply is_plain_spec, hex_plain; eassumption|]).
      assumption.
    + destruct (nat_of_ascii c <? 32); [discriminate|].
      destruct (IH s _ _ _ ltac:(lia) H) as (lit & -> & Hl).
      exists (c :: lit). split; [reflexivity | now constructor].
Qed.

Lemma forallb_plain_app (a b : str) :
  forallb is_plain a = true -> forallb is_plain b = true ->
  forallb is_plain (a ++ b) = true.
Proof. intros Ha Hb. rewrite forallb_app, Ha, Hb. reflexivity. Qed.

Lemma scan_number_split (s : str) v r :
  scan_number s = Some (v, r) ->
  exists c, s = c ++ r /\ forallb is_plain c = true /\
            forall d, v <> JObject d.
Proof.
  unfold scan_number.
  (* the sign *)
  destruct (match s with
            | c :: r0 => if Ascii.eqb c "-" then ([c], r0) else ([], s)
            | [] => ([], s)
            end) as [sign s1] eqn:Esign.
  assert (Hsign : s = sign ++ s1 /\ forallb is_plain sign = true).
  { destruct s as [|c s0]; [inversion Esign; auto|].
    destruct (Ascii.eqb_spec c "-"); inversion Esign; subst; auto. }
  clear Esign.
  (* the integer part *)
  destruct (match s1 with
            | c :: r0 =>
                if Ascii.eqb c "0" then Some ([c], r0)
                else if is_digit c
                     then let (d, r') := span_digits r0 in Some (c :: d, r')
                     else None
            | [] => None
            end) as [[ds s2]|] eqn:Eint; [|discriminate].
  assert (Hint : s1 = ds ++ s2 /\ forallb is_plain ds = true).
  { destruct s1 as [|c s0]; [discriminate|].
    destruct (Ascii.eqb_spec c "0").
    - inversion Eint; subst; auto.
    - destruct (is_digit c) eqn:Hc; [|discriminate].
      destruct (span_digits s0) as [d r'] eqn:Ed. inversion Eint; subst.
      destruct (span_digits_split _ Ed) as [-> Hd].
      simpl. now rewrite (digit_plain _ Hc). }
  clear Eint.
  (* the fraction *)
  destruct (match s2 with
            | c :: r0 =>
                if Ascii.eqb c "."
                then match span_digits r0 with
                     | ([], _) => ([], s2)
                     | (d, r') => (c :: d, r')
                     end
                else ([], s2)
            | [] => ([], s2)
            end) as [frac s3] eqn:Efrac.
  assert (Hfrac : s2 = frac ++ s3 /\ forallb is_plain frac = true).
  { destruct s2 as [|c s0]; [inversion Efrac; auto|].
    destruct (Ascii.eqb_spec c "."); [|inversion Efrac; auto]. subst c.
    destruct (span_digits s0) as [d r'] eqn:Ed.
    destruct (span_digits_split _ Ed) as [-> Hd].
    destruct d; inversion Efrac; subst; auto. }
  clear Efrac.
  (* the exponent *)
  destruct (match s3 with
            | c :: r0 =>
                if Ascii.eqb c "e" || Ascii.eqb c "E"
                then let (sg, r1) :=
                       match r0 with
                       | x :: r2 =>
                           if Ascii.eqb x "+" || Ascii.eqb x "-"
                           then ([x], r2) else ([], r0)
                       | [] => ([], r0)
                       end in
                     match span_digits r1 with
                     | ([], _) => ([], s3)
                     | (d, r') => (c :: sg ++ d, r')
                     end
                else ([], s3)
            | [] => ([], s3)
            end) as [expo s4] eqn:Eexpo.
  assert (Hexpo : s3 = expo ++ s4 /\ forallb is_plain expo = true).
  { destruct s3 as [|c s0]; [inversion Eexpo; auto|].
    destruct (Ascii.eqb c "e" || Ascii.eqb c "E") eqn:Hc;
      [|inversion Eexpo; auto].
    assert (Hpc : is_plain c = true).
    { apply orb_true_iff in Hc as [Hc|Hc]; apply Ascii.eqb_eq in Hc;
        subst; reflexivity. }
    destruct (match s0 with
              | x :: r2 =>
                  if Ascii.eqb x "+" || Ascii.eqb x "-"
                  then ([x], r2) else ([], s0)
              | [] => ([], s0)
              end) as [sg r1] eqn:Esg.
    assert (Hsg : s0 = sg ++ r1 /\ forallb is_plain sg = true).
    { destruct s0 as [|x s0']; [inversion Esg; auto|].
      destruct (Ascii.eqb x "+" || Ascii.eqb x "-") eqn:Hx;
        inversion Esg; subst; auto.
      split; [reflexivity|].
      apply orb_true_iff in Hx as [Hx|Hx]; apply Ascii.eqb_eq in Hx;
        subst; reflexivity. }
    destruct Hsg as [-> Hsg].
    destruct (span_digits r1) as [d r'] eqn:Ed.
    destruct (span_digits_split _ Ed) as [-> Hd].
    destruct d; inversion Eexpo; subst; auto.
    split; [simpl; now rewrite <- app_assoc|].
    simpl. rewrite Hpc. now apply forallb_plain_app. }
  clear Eexpo.
  destruct Hsign as [-> Hsign], Hint as [-> Hint], Hfrac as [-> Hfrac],
           Hexpo as [-> Hexpo].
  intros H.
  assert (Hv : r = s4 /\ forall d, v <> JObject d).
  { destruct frac, expo; inversion H; subst; split;
      reflexivity || discriminate. }
  destruct Hv as [-> Hv].
  exists (sign ++ ds ++ frac ++ expo).
  split; [now rewrite <- !app_assoc|].
  split; [now repeat apply forallb_plain_app | exact Hv].
Qed.

Lemma scan_literal_split (s : str) v r :
  scan_literal s = Some (v, r) ->
  exists c, s = c ++ r /\ forallb is_plain c = true /\
            forall d, v <> JObject d.
Proof.
  unfold scan_literal. intros H.
  repeat match type of H with
         | match drop_prefix ?p s with _ => _ end = _ =>
             destruct (drop_prefix p s) as [r0|] eqn:E;
             [apply drop_prefix_split in E; inversion H; subst;
              exists p; repeat split; discriminate || reflexivity
             |clear E]
         | match scan_number s with _ => _ end = _ =>
             destruct (scan_number s) as [[v0 r0]|] eqn:E;
             [inversion H; subst; now apply scan_number_split|clear E]
         end.
  discriminate.
Qed.

Lemma skip_ws_balanced (s : str) :
  exists ws, s = ws ++ skip_ws s /\ balanced ws.
Proof.
  destruct (skip_ws_split s) as (ws & Hs & Hws).
  exists ws. split; [assumption | now apply balanced_plain].
Qed.

Lemma balanced_one (c : ascii) (s : str) :
  is_plain c = true -> balanced s -> balanced (c :: s).
Proof.
  intros Hc Hs. destruct (is_plain_spec _ Hc) as (? & ? & ? & ?).
  now apply bal_char.
Qed.

Lemma balanced_quoted (lit : str) (s : str) :
  string_body lit -> balanced s -> balanced (dq :: lit ++ dq :: s).
Proof. apply bal_string. Qed.

(** What the three mutually recursive scanners consume. *)
Lemma scan_consumes_balanced (fuel : nat) :
  (forall s v r,
      scan_once fuel s = DOk (v, r) ->
      exists c, s = c ++ r /\ balanced c /\
                forall d, v = JObject d ->
                          exists inner, c = lbrace :: inner ++ [rbrace] /\
                                        balanced inner) /\
  (forall s pairs v r,
      object_members fuel s pairs = DOk (v, r) ->
      exists inner, s = inner ++ rbrace :: r /\ balanced inner) /\
  (forall s values v r,
      array_elements fuel s values = DOk (v, r) ->
      exists c, s = c ++ r /\ balanced c /\ forall d, v <> JObject d).
Proof.
  induction fuel as [|fuel (IHv & IHo & IHa)];
    [repeat split; intros; discriminate|].
  split; [|split].
  - (* a value *)
    intros s v r H. simpl in H.
    destruct s as [|c s]; [discriminate|].
    destruct (Ascii.eqb_spec c dq) as [->|_].
    { destruct (scanstring s []) as [[str0 r0]| | |] eqn:E; try discriminate.
      inversion H; subst.
      destruct (@scanstring_split (length s) s [] _ _ (le_n _) E)
        as (lit & -> & Hlit).
      exists (dq :: lit ++ [dq]). split; [simpl; now rewrite <- app_assoc|].
      split; [apply (bal_string Hlit bal_nil) | discriminate]. }
    destruct (Ascii.eqb_spec c lbrace) as [->|_].
    { destruct (skip_ws_balanced s) as (ws & Hs & Hws).
      destruct (skip_ws s) as [|x r0]; [discriminate|].
      destruct (Ascii.eqb_spec x rbrace) as [->|_].
      - inversion H; subst.
        exists (lbrace :: ws ++ [rbrace]).
        split; [simpl; now rewrite <- app_assoc|].
        split; [apply (bal_braces Hws bal_nil)|].
        intros d _. now exists ws.
      - apply IHo in H as (inner & Hx & Hinner). rewrite Hs, Hx.
        exists (lbrace :: (ws ++ inner) ++ [rbrace]).
        split; [simpl; now rewrite <- !app_assoc|].
        assert (Hb : balanced (ws ++ inner)) by now apply balanced_app.
        split; [apply (bal_braces Hb bal_nil)|].
        intros d _. now exists (ws ++ inner). }
    destruct (Ascii.eqb_spec c "[") as [->|_].
    { destruct (skip_ws_balanced s) as (ws & Hs & Hws).
      destruct (skip_ws s) as [|x r0]; [discriminate|].
      destruct (Ascii.eqb_spec x "]") as [->|_].
      - inversion H; subst.
        exists ("[" :: ws ++ ["]"])%char.
        split; [simpl; now rewrite <- app_assoc|].
        split; [|discriminate].
        apply balanced_one; [reflexivity|].
        apply balanced_app; [assumption|].
        apply balanced_one; [reflexivity | constructor].
      - apply IHa in H as (c' & Hx & Hc' & Hv). rewrite Hs, Hx.
        exists ("["%char :: ws ++ c').
        split; [simpl; now rewrite <- !app_assoc|].
        split; [|intros d Hd; now apply Hv in Hd].
        apply balanced_one; [reflexivity|]. now apply balanced_app. }
    destruct (scan_literal (c :: s)) as [[v0 r0]|] eqn:E; [|discriminate].
    inversion H; subst.
    destruct (scan_literal_split _ E) as (c' & Hs & Hc' & Hv).
    exists c'. split; [assumption|].
    split; [now apply balanced_plain | intros d Hd; now apply Hv in Hd].
  - (* the members of an object *)
    intros s pairs v r H. simpl in H.
    destruct s as [|q s0]; [discriminate|].
    destruct (Ascii.eqb_spec q dq) as [->|_]; [|discriminate].
    destruct (scanstring s0 []) as [[key s1]| | |] eqn:Ek; try discriminate.
    destruct (@scanstring_split (length s0) s0 [] _ _ (le_n _) Ek)
      as (lit & -> & Hlit).
    destruct (skip_ws_balanced s1) as (ws1 & Hs1 & Hws1).
    destruct (skip_ws s1) as [|c s2]; [discriminate|].
    destruct (Ascii.eqb_spec c colon) as [->|_]; [|discriminate].
    destruct (skip_ws_balanced s2) as (ws2 & Hs2 & Hws2).
    destruct (scan_once fuel (skip_ws s2)) as [[value s3]| | |] eqn:Ev;
      try discriminate.
    apply IHv in Ev as (cv & Hv & Hcv & _).
    destruct (skip_ws_balanced s3) as (ws3 & Hs3 & Hws3).
    destruct (skip_ws s3) as [|d s4]; [discriminate|].
    assert (Hhead : balanced (dq :: lit ++ dq :: ws1 ++ colon :: ws2 ++ cv ++ ws3)).
    { apply bal_string; [assumption|].
      apply balanced_app; [assumption|].
      apply balanced_one; [reflexivity|].
      repeat apply balanced_app; assumption. }
    assert (Hs : dq :: lit ++ dq :: s1 =
                 (dq :: lit ++ dq :: ws1 ++ colon :: ws2 ++ cv ++ ws3) ++ d :: s4).
    { rewrite Hs1, Hs2, Hv, Hs3. simpl. rewrite <- !app_assoc. simpl.
      do 2 f_equal. rewrite <- !app_assoc. simpl. rewrite <- !app_assoc.
      reflexivity. }
    rewrite Hs.
    destruct (Ascii.eqb_spec d rbrace) as [->|_].
    + inversion H; subst. eexists; split; [reflexivity | assumption].
    + destruct (Ascii.eqb_spec d ",") as [->|_]; [|discriminate].
      destruct (skip_ws_balanced s4) as (ws4 & Hs4 & Hws4).
      apply IHo in H as (inner & Hx & Hinner).
      exists ((dq :: lit ++ dq :: ws1 ++ colon :: ws2 ++ cv ++ ws3)
              ++ ","%char :: ws4 ++ inner).
      split.
      * rewrite Hs4, Hx at 1. rewrite <- !app_assoc. simpl.
        now rewrite <- !app_assoc.
      * apply balanced_app; [assumption|].
        apply balanced_one; [reflexivity|]. now apply balanced_app.
  - (* the elements of an array *)
    intros s values v r H. simpl in H.
    destruct (scan_once fuel s) as [[value s1]| | |] eqn:Ev; try discriminate.
    apply IHv in Ev as (cv & -> & Hcv & _).
    destruct (skip_ws_balanced s1) as (ws1 & Hs1 & Hws1).
    destruct (skip_ws s1) as [|d s2]; [discriminate|].
    destruct (Ascii.eqb_spec d "]") as [->|_].
    + inversion H; subst.
      exists (cv ++ ws1 ++ ["]"%char]).
      split; [now rewrite <- !app_assoc|].
      split; [|discriminate].
      repeat apply balanced_app; try assumption.
      apply balanced_one; [reflexivity | constructor].
    + destruct (Ascii.eqb_spec d ",") as [->|_]; [|discriminate].
      destruct (skip_ws_balanced s2) as (ws2 & Hs2 & Hws2).
      apply IHa in H as (c' & Hx & Hc' & Hv).
      exists (cv ++ ws1 ++ ","%char :: ws2 ++ c').
      split.
      * rewrite Hs1, Hs2, Hx at 1. rewrite <- !app_assoc. simpl.
        now rewrite <- !app_assoc.
      * split; [|assumption].
        repeat apply balanced_app; try assumption.
        apply balanced_one; [reflexivity|]. now apply balanced_app.
Qed.

(** A text that the decoder reads, to its end, as an object is made of a
    brace, balanced text and the matching brace. *)
Lemma decoded_object_text (fuel : nat) (body : str) (d : dict) :
  scan_once fuel body = DOk (JObject d, []) -> object_text body.
Proof.
  intros H.
  destruct (proj1 (scan_consumes_balanced fuel) _ _ _ H) as (c & -> & _ & Hc).
  destruct (Hc d eq_refl) as (inner & -> & Hinner).
  rewrite app_nil_r. now exists inner.
Qed.

(** ** The response parser *)

Lemma occurs_impl (P Q : str -> Prop) (text : str) :
  (forall s, P s -> Q s) -> occurs P text -> occurs Q text.
Proof.
  intros HPQ (pre & suf & -> & H); exists pre, suf; auto.
Qed.

Lemma no_fence_search (text : str) :
  ~ occurs fence_start text -> re_search fence_re text = None.
Proof.
  intros Hno. apply re_search_none. intros Ho. apply Hno.
  revert Ho. apply occurs_impl. intros s; apply matches_fence.
Qed.

Lemma no_object_search (text : str) :
  ~ occurs object_start text -> re_search object_re text = None.
Proof.
  intros Hno. apply re_search_none. intros Ho. apply Hno.
  revert Ho. apply occurs_impl. intros s; apply matches_object.
Qed.

Lemma search_none_no_fence (text : str) :
  re_search fence_re text = None -> ~ occurs fence_start text.
Proof.
  intros Hs Ho. apply (@re_search_occurs fence_re text); [|assumption].
  revert Ho. apply occurs_impl. intros s; apply matches_fence.
Qed.

Lemma search_none_no_object (text : str) :
  re_search object_re text = None -> ~ occurs object_start text.
Proof.
  intros Hs Ho. apply (@re_search_occurs object_re text); [|assumption].
  revert Ho. apply occurs_impl. intros s; apply matches_object.
Qed.

Lemma first_object_search (pre suf : str) :
  first_after object_start pre suf ->
  exists m, re_search object_re (pre ++ suf) = Some m /\
            m_start m = length pre.
Proof.
  intros [Hs Hno].
  destruct (@search_from_first object_re pre suf 0) as (m & Hm & Hst).
  - split; [now apply matches_object|].
    intros a b E Hb Hm. apply (Hno a b E Hb). now apply matches_object.
  - exists m; split; assumption.
Qed.

Lemma first_after_no_brace (pre suf : str) :
  object_start suf -> ~ In lbrace pre -> first_after object_start pre suf.
Proof.
  intros Hs Hpre. split; [assumption|].
  intros a b -> Hb (ws & key & ws' & rest & E & _).
  destruct b as [|c b]; [congruence|].
  simpl in E. inversion E; subst c.
  apply Hpre. apply in_or_app. right. now left.
Qed.




(** C8. A reply with no fenced block and nothing that looks like the start
    of an object is rejected: the parser raises its [ValueError] and returns
    no result. *)
Theorem parse_fails_without_json (loads : str -> option json) (text : str) :
  ~ occurs fence_start text ->
  ~ occurs object_start text ->
  parse_json_from_response loads text = Raise (ValueError msg_failed).
Proof.
  intros Hfence Hobject.
  unfold parse_json_from_response, parse_json_try.
  now rewrite (no_fence_search Hfence), (no_object_search Hobject).
Qed.

Lemma parse_fails_without_json_witness :
  parse_json_from_response json_loads reply_without_json =
  Raise (ValueError msg_failed).
Proof.
  apply parse_fails_without_json.
  - apply search_none_no_fence. vm_compute. reflexivity.
  - apply search_none_no_object. vm_compute. reflexivity.
Defined.

Lemma fence_search_found (text : str) :
  occurs fence_start text -> exists m, re_search fence_re text = Some m.
Proof.
  intros Ho.
  destruct (re_search fence_re text) as [m|] eqn:E; [now exists m|].
  now apply search_none_no_fence in E.
Qed.

(** C10. When the reply holds a fenced block marked as JSON, the parser
    decodes the contents of that block and nothing else: if they do not
    decode it raises, and the brace scan of the unfenced case is not
    consulted, whatever else the reply contains. *)
Theorem fenced_block_never_falls_back (loads : str -> option json) (text : str) :
  occurs fence_start text ->
  exists m,
    re_search fence_re text = Some m /\
    parse_json_from_response loads text =
    match loads (group1 text m) with
    | Some data => Ok data
    | None => Raise (ValueError msg_failed)
    end.
Proof.
  intros Ho. destruct (fence_search_found Ho) as [m Hm].
  exists m; split; [assumption|].
  unfold parse_json_from_response, parse_json_try. rewrite Hm.
  now destruct (loads (group1 text m)).
Qed.

Lemma fenced_block_never_falls_back_witness :
  parse_json_from_response json_loads reply_bad_fence =
    Raise (ValueError msg_failed) /\
  json_loads (lbrace :: quoted (s_ "a") ++ s_ ": 1}") =
    Some (JObject [(s_ "a", JInt 1)]).
Proof.
  split; [|vm_compute; reflexivity].
  destruct (@fenced_block_never_falls_back json_loads reply_bad_fence)
    as (m & Hm & ->).
  - exists [], reply_bad_fence; split; [reflexivity|].
    exists ([nl] ++ s_ "{bad" ++ [nl]),
           (s_ " " ++ lbrace :: quoted (s_ "a") ++ s_ ": 1}").
    vm_compute. reflexivity.
  - vm_compute in Hm. inversion Hm; subst m. vm_compute. reflexivity.
Defined.

(** The reply of the specification that wraps its object in a fence. *)
Example fenced_reply_example :
  parse_json_from_response json_loads
    (s_ "Here you go:" ++ [nl] ++ s_ "```json" ++ [nl] ++
     lbrace :: quoted (s_ "a") ++ s_ ": 1}" ++ [nl] ++ s_ "```" ++ [nl] ++
     s_ "Thanks")
  = Ok (JObject [(s_ "a", JInt 1)]).
Proof. vm_compute. reflexivity. Qed.

(** ** The completion client *)

Section ClientFacts.

Variable oracle : Type.
Variable generate_content :
  list part -> generation_config -> oracle -> result str * oracle.

(** The loop never runs out of fuel. *)
Lemma retry_loop_terminates content cfg : forall fuel retry_count w,
  0 < fuel ->
  (max_retries - retry_count < Z.of_nat fuel)%Z ->
  retry_loop generate_content fuel content cfg retry_count w <> None.
Proof.
  induction fuel as [|fuel IH]; intros rc w Hpos Hfuel; [lia|].
  simpl. destruct (rc <? max_retries)%Z eqn:Hlt; [|discriminate].
  unfold call_model.
  destruct (generate_content content cfg (w_oracle w)) as [[text|e] o];
    [discriminate|].
  destruct (rc + 1 >=? max_retries)%Z eqn:Hge; [discriminate|].
  apply Z.ltb_lt in Hlt. rewrite Z.geb_leb in Hge. apply Z.leb_gt in Hge.
  apply IH; lia.
Qed.

Lemma get_gemini_response_fuel content t w :
  retry_loop generate_content (S (Z.to_nat max_retries)) content
             (config_at t) 0 w <> None.
Proof.
  apply retry_loop_terminates; unfold max_retries; simpl; lia.
Qed.

(** The three iterations, unrolled. *)
Lemma get_gemini_response_unrolled content t w :
  get_gemini_response generate_content content t w =
  let cfg := config_at t in
  let rq := (content, cfg) in
  match generate_content content cfg (w_oracle w) with
  | (Ok text, o1) => (Ok text, World o1 (w_requests w ++ [rq]) (w_slept w))
  | (Raise _, o1) =>
      match generate_content content cfg o1 with
      | (Ok text, o2) =>
          (Ok text, World o2 ((w_requests w ++ [rq]) ++ [rq])
                          (w_slept w ++ [2%Z]))
      | (Raise _, o2) =>
          let (r, o3) := generate_content content cfg o2 in
          (r, World o3 (((w_requests w ++ [rq]) ++ [rq]) ++ [rq])
                    ((w_slept w ++ [2%Z]) ++ [4%Z]))
      end
  end.
Proof.
  unfold get_gemini_response, config_at; simpl. unfold call_model; simpl.
  destruct (generate_content content _ (w_oracle w)) as [[text|e] o1];
    [reflexivity|]; simpl.
  destruct (generate_content content _ o1) as [[text|e'] o2];
    [reflexivity|]; simpl.
  destruct (generate_content content _ o2) as [[text|e''] o3]; reflexivity.
Qed.


End ClientFacts.



(** ** The document preprocessor *)

Lemma slice_to_length (A : Type) (l : list A) (n : nat) :
  length (slice_to l (Z.of_nat n)) <= n.
Proof.
  unfold slice_to.
  replace (0 <=? Z.of_nat n)%Z with true by (symmetry; apply Z.leb_le; lia).
  rewrite Nat2Z.id. rewrite length_firstn. lia.
Qed.

(** A negative bound counts from the end of the list, as in Python. *)
Remark slice_to_negative : slice_to [1; 2; 3] (-1) = [1; 2].
Proof. reflexivity. Qed.

Section PreprocessorFacts.

Variable image : Type.
Variable fitz_open : list Byte.byte -> option (list (option str)).
Variable convert_from_bytes : list Byte.byte -> option (list image).
Variable save_jpeg : image -> list Byte.byte.
Variable b64encode : list Byte.byte -> str.

#[local] Abbreviation extract := (extract_text_from_pdf fitz_open).
#[local] Abbreviation rasterize := (convert_pdf_to_images convert_from_bytes).
#[local] Abbreviation build_content :=
  (prepare_vision_content fitz_open convert_from_bytes save_jpeg b64encode).

Lemma image_parts_are_images (imgs : list image) :
  forallb is_image_part (map (image_part save_jpeg b64encode) imgs) = true.
Proof. induction imgs; simpl; auto. Qed.

(** The content: one text part, then the image parts of the first three
    of the pages rasterized with the default bound. *)
Lemma prepare_vision_content_parts pdf jd prompt include :
  build_content pdf jd prompt include =
  TextPart (prompt ++ resume_label ++ firstn text_limit (extract pdf) ++ ellipsis
                   ++ job_block jd)
  :: (if include
      then map (image_part save_jpeg b64encode)
               (firstn 3 (rasterize pdf default_max_pages))
      else []).
Proof.
  unfold prepare_vision_content.
  assert (Htext :
    (if truthy jd
     then (prompt ++ resume_label ++
           firstn text_limit (extract_text_from_pdf fitz_open pdf) ++ ellipsis)
          ++ job_label ++ match jd with Some j => j | None => [] end
     else prompt ++ resume_label ++
          firstn text_limit (extract_text_from_pdf fitz_open pdf) ++ ellipsis) =
    prompt ++ resume_label ++
    firstn text_limit (extract_text_from_pdf fitz_open pdf) ++ ellipsis ++
    job_block jd).
  { destruct jd as [[|c j]|]; simpl truthy; cbv iota; unfold job_block.
    - now rewrite app_nil_r.
    - now rewrite <- !app_assoc.
    - now rewrite app_nil_r. }
  rewrite Htext. destruct include; [|reflexivity].
  now destruct (convert_pdf_to_images convert_from_bytes pdf default_max_pages).
Qed.

(** C4, as the code has it.  The content starts with its only text part.
    The text is the prompt, the label of the resume text, the first 10000
    characters of the extracted text, three dots and, when the job
    description is present and not empty, the label of the job description
    followed by the job description.  The other parts are image parts. *)
Theorem prepared_text_part pdf jd prompt include :
  exists excerpt images,
    build_content pdf jd prompt include =
      TextPart (prompt ++ resume_label ++ excerpt ++ ellipsis ++ job_block jd)
      :: images /\
    forallb is_image_part images = true /\
    excerpt = firstn text_limit (extract pdf) /\
    length excerpt <= text_limit /\
    (exists cut, extract pdf = excerpt ++ cut) /\
    (forall j, j <> [] -> job_block (Some j) = job_label ++ j) /\
    job_block (Some []) = [] /\ job_block None = [].
Proof.
  exists (firstn text_limit (extract pdf)).
  eexists. split; [apply prepare_vision_content_parts|].
  split; [destruct include; [apply image_parts_are_images | reflexivity]|].
  split; [reflexivity|].
  split; [apply firstn_le_length|].
  split; [exists (skipn text_limit (extract pdf)); symmetry; apply firstn_skipn|].
  split; [|split; reflexivity].
  intros [|c j] Hj; [congruence | reflexivity].
Qed.

(** C7. With a page count as the bound, the rasterizer returns at most
    that many images; the default bound is 5; and the content never has
    more than 3 image parts. *)
Theorem image_bounds :
  (forall pdf (max_pages : nat),
      length (rasterize pdf (Z.of_nat max_pages)) <= max_pages) /\
  default_max_pages = 5%Z /\
  (forall pdf jd prompt include,
      length (filter is_image_part (build_content pdf jd prompt include)) <= 3).
Proof.
  split; [|split; [reflexivity|]].
  - intros pdf n. unfold convert_pdf_to_images.
    destruct (convert_from_bytes pdf); [apply slice_to_length | simpl; lia].
  - intros pdf jd prompt include. rewrite prepare_vision_content_parts.
    cbn [filter is_image_part]. destruct include; [|simpl; lia].
    etransitivity; [apply filter_length_le|].
    rewrite length_map. apply firstn_le_length.
Qed.

Lemma pages_text_failure pages : forall text,
  In None pages -> pages_text pages text = None.
Proof.
  induction pages as [|[t|] pages IH]; intros text Hin; simpl.
  - destruct Hin.
  - destruct Hin as [Hin|Hin]; [discriminate | auto].
  - reflexivity.
Qed.

(** When opening the document raises, or reading a page does, the extracted
    text is empty; when the conversion to images raises, there are no
    images; and the content is built all the same. *)
Lemma extraction_failure_degrades pdf :
  (fitz_open pdf = None -> extract pdf = []) /\
  (forall pages, fitz_open pdf = Some pages -> In None pages -> extract pdf = []) /\
  (convert_from_bytes pdf = None -> forall max_pages, rasterize pdf max_pages = []) /\
  (fitz_open pdf = None -> convert_from_bytes pdf = None ->
   forall jd prompt include,
     build_content pdf jd prompt include =
     [TextPart (prompt ++ resume_label ++ ellipsis ++ job_block jd)]).
Proof.
  assert (H1 : fitz_open pdf = None -> extract pdf = []).
  { intros E. unfold extract_text_from_pdf. now rewrite E. }
  assert (H3 : convert_from_bytes pdf = None ->
               forall max_pages, rasterize pdf max_pages = []).
  { intros E n. unfold convert_pdf_to_images. now rewrite E. }
  repeat split; try assumption.
  - intros pages E Hin. unfold extract_text_from_pdf.
    now rewrite E, (@pages_text_failure pages [] Hin).
  - intros Ef Ec jd prompt include. rewrite prepare_vision_content_parts.
    rewrite (H1 Ef), (H3 Ec). simpl firstn. now destruct include.
Qed.

End PreprocessorFacts.

(** ** The analysis chains *)

Section OrchestratorFacts.

Variable image : Type.
Variable fitz_open : list Byte.byte -> option (list (option str)).
Variable convert_from_bytes : list Byte.byte -> option (list image).
Variable save_jpeg : image -> list Byte.byte.
Variable b64encode : list Byte.byte -> str.
Variable loads : str -> option json.
Variable dumps : json -> str.
Variable oracle : Type.
Variable generate_content :
  list part -> generation_config -> oracle -> result str * oracle.
Variables STEP1 STEP2_JOB STEP3_JOB STEP2_ATS STEP3_ATS : str.
Variable render : dict -> result str.

#[local] Abbreviation content :=
  (prepare fitz_open convert_from_bytes save_jpeg b64encode).
#[local] Abbreviation ats_only :=
  (analyze_resume_ats_only fitz_open convert_from_bytes save_jpeg b64encode
     loads dumps generate_content STEP1 STEP2_ATS STEP3_ATS).
#[local] Abbreviation job_matching :=
  (analyze_resume_job_matching fitz_open convert_from_bytes save_jpeg b64encode
     loads dumps generate_content STEP1 STEP2_JOB STEP3_JOB).

Lemma complete_requests c t (w : world oracle) r w' :
  complete generate_content c t w = (r, w') ->
  exists n, 1 <= n <= 3 /\
            w_requests w' = w_requests w ++ repeat (c, config_at t) n.
Proof.
  unfold complete. rewrite get_gemini_response_unrolled; cbv zeta.
  destruct (generate_content c (config_at t) (w_oracle w)) as [[t1|e1] o1].
  - intros H; inversion H; subst. exists 1; split; [lia | reflexivity].
  - destruct (generate_content c (config_at t) o1) as [[t2|e2] o2].
    + intros H; inversion H; subst. exists 2; split; [lia|].
      simpl. now rewrite <- app_assoc.
    + destruct (generate_content c (config_at t) o2) as [r3 o3].
      intros H; inversion H; subst. exists 3; split; [lia|].
      simpl. now rewrite <- !app_assoc.
Qed.

Lemma replay_app (o o1 o2 : oracle) a b ra rb :
  replay generate_content o a = (ra, o1) ->
  replay generate_content o1 b = (rb, o2) ->
  replay generate_content o (a ++ b) = (ra ++ rb, o2).
Proof.
  revert o ra. induction a as [|[c cfg] a IH]; intros o ra Ha Hb.
  - inversion Ha; subst. exact Hb.
  - cbn [replay app] in *.
    destruct (generate_content c cfg o) as [r o'].
    destruct (replay generate_content o' a) as [rs o''] eqn:E.
    inversion Ha; subst. now rewrite (IH _ _ E Hb).
Qed.

(** The result of a call is the reply of the service to the last request
    that the call sent. *)
Lemma complete_replay c t (w : world oracle) r w' :
  complete generate_content c t w = (r, w') ->
  exists sent earlier,
    w_requests w' = w_requests w ++ sent ++ [(c, config_at t)] /\
    replay generate_content (w_oracle w) (sent ++ [(c, config_at t)]) =
      (earlier ++ [r], w_oracle w').
Proof.
  unfold complete. rewrite get_gemini_response_unrolled; cbv zeta.
  destruct (generate_content c (config_at t) (w_oracle w))
    as [[t1|e1] o1] eqn:E1.
  - intros H; inversion H; subst. exists [], []. split; [reflexivity|].
    cbn [app replay w_oracle]. now rewrite E1.
  - destruct (generate_content c (config_at t) o1) as [[t2|e2] o2] eqn:E2.
    + intros H; inversion H; subst. exists [(c, config_at t)], [Raise e1].
      split; [cbn [w_requests app]; now rewrite <- app_assoc|].
      cbn [app replay w_oracle]. now rewrite E1, E2.
    + destruct (generate_content c (config_at t) o2) as [r3 o3] eqn:E3.
      intros H; inversion H; subst.
      exists [(c, config_at t); (c, config_at t)], [Raise e1; Raise e2].
      split; [cbn [w_requests app]; now rewrite <- !app_assoc|].
      cbn [app replay w_oracle]. now rewrite E1, E2, E3.
Qed.

Lemma chain_log_one c1 c2 c3 n1 :
  chain_log c1 c2 c3 n1 0 0 = repeat (c1, config_at (1 # 10)) n1.
Proof. unfold chain_log. cbn [repeat]. now rewrite !app_nil_r. Qed.

Lemma chain_log_two c1 c2 c3 n1 n2 :
  chain_log c1 c2 c3 n1 n2 0 =
  repeat (c1, config_at (1 # 10)) n1 ++ repeat (c2, config_at (2 # 10)) n2.
Proof. unfold chain_log. cbn [repeat]. now rewrite app_nil_r. Qed.

Lemma chain_log_head c1 c2 c3 n1 n2 n3 :
  chain_log c1 c2 c3 (S n1) n2 n3 =
  (c1, config_at (1 # 10)) :: chain_log c1 c2 c3 n1 n2 n3.
Proof. reflexivity. Qed.

Ltac chain_step E :=
  match goal with
  | H : context [complete generate_content ?c ?t ?w] |- _ =>
      let resp := fresh "resp" in
      let e := fresh "e" in
      let w1 := fresh "w" in
      destruct (complete generate_content c t w) as [[resp|e] w1] eqn:E;
      apply complete_requests in E as (? & ? & E)
  end.

Ltac chain_parse P :=
  match goal with
  | H : context [parse_json_from_response loads ?x] |- _ =>
      let v := fresh "analysis" in
      let e := fresh "e" in
      destruct (parse_json_from_response loads x) as [v|e] eqn:P
  end.

Ltac chain_done :=
  match goal with
  | H : (_, _) = (_, _) |- _ => inversion H; subst; clear H
  end.

Lemma chain_requests mode pdf jd (w : world oracle) r w' :
  analyze fitz_open convert_from_bytes save_jpeg b64encode loads dumps
          generate_content STEP1 STEP2_JOB STEP3_JOB STEP2_ATS STEP3_ATS
          mode pdf jd w = (r, w') ->
  exists prompt2 prompt3 n1 n2 n3,
    w_requests w' =
      w_requests w ++
      chain_log (content pdf None STEP1 true)
                (content pdf (stage_job_description mode jd) prompt2 false)
                (content pdf (stage_job_description mode jd) prompt3 false)
                n1 n2 n3 /\
    chain_counts r n1 n2 n3.
Proof.
  unfold chain_counts.
  destruct mode; unfold analyze, analyze_resume_ats_only,
    analyze_resume_job_matching, bind, parse, lift, ret; cbv zeta; intros H.
  all: chain_step E1; [chain_parse P1; [chain_step E2; [chain_parse P2;
         [chain_step E3; [chain_parse P3|]|]|]|]|].
  all: try (destruct (client_response_of _)).
  all: chain_done.
  all: repeat match goal with
         | E : w_requests _ = _ |- _ => rewrite E; clear E
         end.
  all: rewrite <- ?app_assoc.
  all: match goal with
       | |- exists _ _ _ _ _,
            _ ++ repeat _ ?a ++ repeat (_ ?p2 false, _) ?b
              ++ repeat (_ ?p3 false, _) ?c = _ /\ _ =>
           exists p2, p3, a, b, c; unfold chain_log
       | |- exists _ _ _ _ _,
            _ ++ repeat _ ?a ++ repeat (_ ?p2 false, _) ?b = _ /\ _ =>
           exists p2, [], a, b, 0; rewrite chain_log_two
       | |- exists _ _ _ _ _, _ ++ repeat _ ?a = _ /\ _ =>
           exists [], [], a, 0, 0; rewrite chain_log_one
       end.
  all: (split; [reflexivity | cbn [is_raise]; repeat split; lia || discriminate]).
Qed.

Lemma filter_image_parts (imgs : list image) :
  filter is_image_part (map (image_part save_jpeg b64encode) imgs) =
  map (image_part save_jpeg b64encode) imgs.
Proof. induction imgs; simpl; congruence. Qed.

(** C5. Whatever the mode, the requests of a chain are, in this order: the
    stage-1 content (the extraction prompt, no job description, the page
    images) at temperature 0.1; the stage-2 content at 0.2; the stage-3
    content at 0.3.  The contents of stages 2 and 3 are a single text part,
    built with the job description in job-matching mode and without one in
    ATS-only mode. *)
Theorem stage_contents mode pdf jd (w : world oracle) r w' :
  analyze fitz_open convert_from_bytes save_jpeg b64encode loads dumps
          generate_content STEP1 STEP2_JOB STEP3_JOB STEP2_ATS STEP3_ATS
          mode pdf jd w = (r, w') ->
  exists prompt2 prompt3 n1 n2 n3,
    let excerpt := firstn text_limit (extract_text_from_pdf fitz_open pdf) in
    let images :=
      map (image_part save_jpeg b64encode)
          (firstn 3 (convert_pdf_to_images convert_from_bytes pdf
                                           default_max_pages)) in
    let passed := stage_job_description mode jd in
    let stage1 :=
      TextPart (STEP1 ++ resume_label ++ excerpt ++ ellipsis) :: images in
    let stage2 :=
      [TextPart (prompt2 ++ resume_label ++ excerpt ++ ellipsis
                         ++ job_block passed)] in
    let stage3 :=
      [TextPart (prompt3 ++ resume_label ++ excerpt ++ ellipsis
                         ++ job_block passed)] in
    w_requests w' = w_requests w ++ chain_log stage1 stage2 stage3 n1 n2 n3 /\
    chain_counts r n1 n2 n3 /\
    stage1 = content pdf None STEP1 true /\
    stage2 = content pdf passed prompt2 false /\
    stage3 = content pdf passed prompt3 false /\
    filter is_image_part stage1 = images /\
    (passed = Some jd <-> mode = JOB_MATCHING) /\
    (passed = None <-> mode = ATS_ONLY) /\
    (1 # 10 < 2 # 10)%Q /\ (2 # 10 < 3 # 10)%Q.
Proof.
  intros Hrun.
  destruct (chain_requests _ _ _ _ Hrun) as (p2 & p3 & n1 & n2 & n3 & Hlog & Hn).
  exists p2, p3, n1, n2, n3. cbv zeta.
  unfold prepare in *. rewrite !prepare_vision_content_parts in Hlog.
  rewrite !prepare_vision_content_parts.
  simpl job_block in *. rewrite app_nil_r in Hlog.
  rewrite (app_nil_r ellipsis).
  split; [assumption|]. split; [assumption|].
  repeat split; try reflexivity;
    try (destruct mode; cbn [stage_job_description]; congruence).
  cbn [filter is_image_part]. now rewrite filter_image_parts.
Qed.

Lemma str_eqb_eq (a b : str) : str_eqb a b = true <-> a = b.
Proof.
  unfold str_eqb. destruct (list_eq_dec ascii_dec a b); split; congruence.
Qed.

Lemma dict_keys_filter (f : str -> bool) (d : dict) :
  dict_keys (filter (fun kv => f (fst kv)) d) = filter f (dict_keys d).
Proof.
  induction d as [|[k v] d IH]; simpl; [reflexivity|].
  destruct (f k); simpl; congruence.
Qed.

Lemma dict_get_filter_kept (f : str -> bool) (d : dict) (k : str) :
  f k = true -> dict_get (filter (fun kv => f (fst kv)) d) k = dict_get d k.
Proof.
  intros Hk. induction d as [|[k' v] d IH]; simpl; [reflexivity|].
  destruct (f k') eqn:Hk'; simpl.
  - now rewrite IH.
  - destruct (str_eqb k' k) eqn:E; [|assumption].
    apply str_eqb_eq in E. congruence.
Qed.

Lemma dict_get_filter_dropped (f : str -> bool) (d : dict) (k : str) :
  f k = false -> dict_get (filter (fun kv => f (fst kv)) d) k = None.
Proof.
  intros Hk. induction d as [|[k' v] d IH]; simpl; [reflexivity|].
  destruct (f k') eqn:Hk'; simpl; [|assumption].
  destruct (str_eqb k' k) eqn:E; [|assumption].
  apply str_eqb_eq in E. congruence.
Qed.

Lemma chain_report mode pdf jd (w : world oracle) report w' :
  analyze fitz_open convert_from_bytes save_jpeg b64encode loads dumps
          generate_content STEP1 STEP2_JOB STEP3_JOB STEP2_ATS STEP3_ATS
          mode pdf jd w = (Ok report, w') ->
  exists text3 final_analysis,
    parse_json_from_response loads text3 = Ok final_analysis /\
    client_response_of final_analysis = Ok report.
Proof.
  destruct mode; unfold analyze, analyze_resume_ats_only,
    analyze_resume_job_matching, bind, parse, lift, ret; cbv zeta; intros H.
  all: chain_step E1; [chain_parse P1; [chain_step E2; [chain_parse P2;
         [chain_step E3; [chain_parse P3|]|]|]|]|].
  all: try match goal with
           | H : context [client_response_of ?x] |- _ =>
               destruct (client_response_of x) eqn:C
           end.
  all: chain_done.
  all: eauto.
Qed.

Ltac chain_last E :=
  match goal with
  | H : context [complete generate_content ?c ?t ?w] |- _ =>
      let resp := fresh "resp" in
      let e := fresh "e" in
      let w1 := fresh "w" in
      destruct (complete generate_content c t w) as [[resp|e] w1] eqn:E
  end.

(** A report is made from the last reply that the run received, which is
    the reply to the stage-3 request. *)
Lemma chain_final_reply mode pdf jd (w : world oracle) report w' :
  analyze fitz_open convert_from_bytes save_jpeg b64encode loads dumps
          generate_content STEP1 STEP2_JOB STEP3_JOB STEP2_ATS STEP3_ATS
          mode pdf jd w = (Ok report, w') ->
  exists sent content3 replies text3 final,
    w_requests w' =
      w_requests w ++ sent ++ [(content3, config_at (3 # 10))] /\
    replay generate_content (w_oracle w)
           (sent ++ [(content3, config_at (3 # 10))]) =
      (replies ++ [Ok text3], w_oracle w') /\
    parse_json_from_response loads text3 = Ok final /\
    client_response_of final = Ok report.
Proof.
  destruct mode; unfold analyze, analyze_resume_ats_only,
    analyze_resume_job_matching, bind, parse, lift, ret; cbv zeta; intros H.
  all: chain_last E1; [chain_parse P1; [chain_last E2; [chain_parse P2;
         [chain_last E3; [chain_parse P3|]|]|]|]|].
  all: try match goal with
           | H : context [client_response_of ?x] |- _ =>
               destruct (client_response_of x) eqn:C
           end.
  all: chain_done.
  all: apply complete_replay in E1 as (s1 & r1 & L1 & R1).
  all: apply complete_replay in E2 as (s2 & r2 & L2 & R2).
  all: apply complete_replay in E3 as (s3 & r3 & L3 & R3).
  all: pose proof (@replay_app _ _ _ _ _ _ _ R1
                    (@replay_app _ _ _ _ _ _ _ R2 R3)) as R.
  all: match type of R with
       | replay _ _ ((_ ++ [?q1]) ++ (_ ++ [?q2]) ++ _ ++ [(?c3, _)]) =
           ((_ ++ [?a1]) ++ (_ ++ [?a2]) ++ _ ++ [Ok ?text3], _) =>
           exists ((s1 ++ [q1]) ++ (s2 ++ [q2]) ++ s3), c3,
                  ((r1 ++ [a1]) ++ (r2 ++ [a2]) ++ r3), text3;
           eexists;
           split; [rewrite L3, L2, L1, <- !app_assoc; reflexivity|];
           split; [rewrite <- !app_assoc in R; rewrite <- !app_assoc;
                   rewrite <- ?app_assoc; exact R|];
           split; [exact P3 | exact C]
       end.
Qed.

(** C3. The report a chain returns is the stage-3 object without those of
    its keys that begin with an underscore: the other keys are kept, in
    their order and with their values, and no key of the report begins with
    an underscore.  The stage-3 object is what the parser made of the last
    reply that the run received from the service, the reply to its last
    request, the one sent at temperature 0.3.  (The keys are those of the
    object itself; its values are returned as they are.) *)
Theorem final_report_strips_underscore_keys :
  (forall k, starts_with_underscore k = true <-> exists rest, k = "_"%char :: rest) /\
  (forall d, exists report,
      client_response_of (JObject d) = Ok report /\
      dict_keys report =
        filter (fun k => negb (starts_with_underscore k)) (dict_keys d) /\
      (forall k, In k (dict_keys report) -> starts_with_underscore k = false) /\
      (forall k, starts_with_underscore k = true -> dict_get report k = None) /\
      (forall k, starts_with_underscore k = false ->
                 dict_get report k = dict_get d k)) /\
  (forall mode pdf jd (w : world oracle) report w',
      analyze fitz_open convert_from_bytes save_jpeg b64encode loads dumps
              generate_content STEP1 STEP2_JOB STEP3_JOB STEP2_ATS STEP3_ATS
              mode pdf jd w = (Ok report, w') ->
      exists sent content3 replies text3 d,
        w_requests w' =
          w_requests w ++ sent ++ [(content3, config_at (3 # 10))] /\
        replay generate_content (w_oracle w)
               (sent ++ [(content3, config_at (3 # 10))]) =
          (replies ++ [Ok text3], w_oracle w') /\
        parse_json_from_response loads text3 = Ok (JObject d) /\
        report = filter (fun kv => negb (starts_with_underscore (fst kv))) d /\
        dict_keys report =
          filter (fun k => negb (starts_with_underscore k)) (dict_keys d) /\
        (forall k, In k (dict_keys report) ->
                   starts_with_underscore k = false) /\
        (forall k, starts_with_underscore k = true ->
                   dict_get report k = None) /\
        (forall k, starts_with_underscore k = false ->
                   dict_get report k = dict_get d k)).
Proof.
  assert (Hkeys : forall d k,
    In k (dict_keys (filter (fun kv => negb (starts_with_underscore (fst kv))) d)) ->
    starts_with_underscore k = false).
  { intros d k Hin.
    rewrite (dict_keys_filter (fun k => negb (starts_with_underscore k))) in Hin.
    apply filter_In in Hin as [_ Hk]. now apply negb_true_iff in Hk. }
  assert (Hdrop : forall d k, starts_with_underscore k = true ->
    dict_get (filter (fun kv => negb (starts_with_underscore (fst kv))) d) k
    = None).
  { intros d k Hk.
    apply (dict_get_filter_dropped (fun k => negb (starts_with_underscore k))).
    now rewrite Hk. }
  assert (Hkeep : forall d k, starts_with_underscore k = false ->
    dict_get (filter (fun kv => negb (starts_with_underscore (fst kv))) d) k
    = dict_get d k).
  { intros d k Hk.
    apply (dict_get_filter_kept (fun k => negb (starts_with_underscore k))).
    now rewrite Hk. }
  split; [|split].
  - intros k. unfold starts_with_underscore. split.
    + intros Hk. apply startswith_inv in Hk as [rest ->]. now exists rest.
    + intros [rest ->]. reflexivity.
  - intros d. eexists. split; [reflexivity|].
    split; [apply (dict_keys_filter (fun k => negb (starts_with_underscore k)))|].
    split; [apply Hkeys|]. split; [apply Hdrop | apply Hkeep].
  - intros mode pdf jd w report w' Hrun.
    destruct (chain_final_reply _ _ _ _ Hrun)
      as (sent & content3 & replies & text3 & final
          & Hlog & Hgen & Hparse & Hresp).
    destruct final; try discriminate.
    cbn [client_response_of] in Hresp. inversion Hresp; subst report.
    exists sent, content3, replies, text3, d.
    split; [exact Hlog|]. split; [exact Hgen|]. split; [exact Hparse|].
    split; [reflexivity|].
    split; [apply (dict_keys_filter (fun k => negb (starts_with_underscore k)))|].
    split; [apply Hkeys|]. split; [apply Hdrop | apply Hkeep].
Qed.

#[local] Abbreviation post_job_matching :=
  (post_analyze_job_matching fitz_open convert_from_bytes save_jpeg b64encode
     loads dumps generate_content STEP1 STEP2_JOB STEP3_JOB render).
#[local] Abbreviation post_ats_only :=
  (post_analyze_ats_only fitz_open convert_from_bytes save_jpeg b64encode
     loads dumps generate_content STEP1 STEP2_ATS STEP3_ATS render).

Lemma not_pdf_name (name : str) :
  ~ (exists stem, name = stem ++ s_ ".pdf") -> endswith name (s_ ".pdf") = false.
Proof.
  intros Hno. destruct (endswith name (s_ ".pdf")) eqn:E; [|reflexivity].
  exfalso. apply Hno. now apply endswith_inv.
Qed.

Lemma pdf_name (name : str) :
  (exists stem, name = stem ++ s_ ".pdf") -> endswith name (s_ ".pdf") = true.
Proof. intros [stem ->]. apply endswith_app. Qed.

Lemma blank_job_description (jd : str) :
  forallb is_space jd = true ->
  negb (truthy (Some jd)) || str_eqb (strip jd) [] = true.
Proof.
  intros Hb. apply orb_true_iff; right.
  apply str_eqb_eq. now apply strip_blank_iff.
Qed.

Lemma bad_request_is_client_error detail :
  client_error (HTTPException 400 detail).
Proof. exists 400%Z, detail. split; [reflexivity | lia]. Qed.

Lemma unprocessable_is_client_error detail :
  client_error (HTTPException 422 detail).
Proof. exists 422%Z, detail. split; [reflexivity | lia]. Qed.

(** C6. A file whose name does not end in [.pdf] is answered with a client
    error by both routes; the job-matching route answers a missing job
    description, and one that is empty or only white space, with a client
    error; in each case nothing has been sent to the service.  The ATS-only
    route takes no job description: on a [.pdf] file it runs the chain and
    its response is the report, or a server error when the chain raised or
    when the report could not be rendered; it is never a client error. *)
Theorem invalid_input_rejected (f : upload_file) (job_description : option str)
    (w : world oracle) :
  (~ (exists stem, filename f = stem ++ s_ ".pdf") ->
   rejects (post_job_matching (Some f) job_description) w /\
   rejects (post_ats_only (Some f)) w) /\
  (job_description = None \/
   (exists jd, job_description = Some jd /\ forallb is_space jd = true) ->
   rejects (post_job_matching (Some f) job_description) w) /\
  ((exists stem, filename f = stem ++ s_ ".pdf") ->
   post_ats_only (Some f) w =
   match ats_only (file_content f) w with
   | (Ok report, w') =>
       match render report with
       | Ok _ => (JSONResponse report, w')
       | Raise e => (HTTPException 500 (exn_str e), w')
       end
   | (Raise e, w') => (HTTPException 500 (exn_str e), w')
   end /\
   ~ client_error (fst (post_ats_only (Some f) w))).
Proof.
  unfold rejects, post_analyze_job_matching, post_analyze_ats_only,
    api_analyze_resume_job_matching, api_analyze_resume_ats_only.
  split; [|split].
  - intros Hname. rewrite (not_pdf_name Hname); cbn [negb]. split.
    + destruct job_description as [[|c jd]|]; eexists; split;
        try reflexivity;
        first [apply bad_request_is_client_error
              | apply unprocessable_is_client_error].
    + eexists; split; [reflexivity | apply bad_request_is_client_error].
  - intros [-> | (jd & -> & Hblank)].
    + eexists; split; [reflexivity | apply unprocessable_is_client_error].
    + destruct jd as [|c jd].
      * eexists; split; [reflexivity | apply unprocessable_is_client_error].
      * destruct (negb (endswith (filename f) (s_ ".pdf"))).
        -- eexists; split; [reflexivity | apply bad_request_is_client_error].
        -- rewrite (blank_job_description _ Hblank).
           eexists; split; [reflexivity | apply bad_request_is_client_error].
  - intros Hname. rewrite (pdf_name Hname); cbn [negb].
    split; [reflexivity|]. cbv zeta.
    destruct (ats_only (file_content f) w) as [[report|e] w1];
      [destruct (render report)|]; cbn [fst];
      intros (code & detail & Hr & Hcode); inversion Hr; subst; lia.
Qed.

(** C9. A document that cannot be opened, or a page that cannot be read,
    gives the empty text; a document that cannot be converted gives no
    images; neither raises.  The chain goes on: its first request carries
    the prompt, whatever text was extracted and whatever images were made,
    which is the prompt alone when both extractions failed. *)
Theorem extraction_failure_not_fatal pdf mode jd (w : world oracle) :
  (fitz_open pdf = None -> extract_text_from_pdf fitz_open pdf = []) /\
  (forall pages, fitz_open pdf = Some pages -> In None pages ->
                 extract_text_from_pdf fitz_open pdf = []) /\
  (convert_from_bytes pdf = None ->
   forall max_pages, convert_pdf_to_images convert_from_bytes pdf max_pages = []) /\
  (exists more,
     w_requests
       (snd (analyze fitz_open convert_from_bytes save_jpeg b64encode loads
                     dumps generate_content STEP1 STEP2_JOB STEP3_JOB
                     STEP2_ATS STEP3_ATS mode pdf jd w)) =
     w_requests w ++
     (TextPart (STEP1 ++ resume_label ++
                firstn text_limit (extract_text_from_pdf fitz_open pdf) ++
                ellipsis)
      :: map (image_part save_jpeg b64encode)
             (firstn 3 (convert_pdf_to_images convert_from_bytes pdf
                                              default_max_pages)),
      config_at (1 # 10)) :: more) /\
  (fitz_open pdf = None -> convert_from_bytes pdf = None ->
   content pdf None STEP1 true = [TextPart (STEP1 ++ resume_label ++ ellipsis)]).
Proof.
  destruct (extraction_failure_degrades fitz_open convert_from_bytes
              save_jpeg b64encode pdf) as (H1 & H2 & H3 & H4).
  repeat split; try assumption.
  - destruct (analyze _ _ _ _ _ _ _ _ _ _ _ _ mode pdf jd w) as [r w'] eqn:Hrun.
    destruct (chain_requests _ _ _ _ Hrun)
      as (p2 & p3 & n1 & n2 & n3 & Hlog & Hn).
    cbn [snd]. rewrite Hlog. unfold prepare.
    rewrite prepare_vision_content_parts. cbn [job_block]. rewrite app_nil_r.
    destruct Hn as ((Hn1 & _) & _).
    destruct n1 as [|n1]; [lia|].
    rewrite chain_log_head. eexists. reflexivity.
  - intros Ef Ec. unfold prepare. rewrite (H4 Ef Ec).
    cbn [job_block]. now rewrite app_nil_r.
Qed.

End OrchestratorFacts.

(** ** The theorems at concrete inputs *)

Lemma final_report_strips_underscore_keys_witness :
  let run := toy_analyze JOB_MATCHING seven_pages (s_ "Rust")
                         (World three_replies [] []) in
  fst run = Ok [(s_ "overall_score", JInt 82)] /\
  exists sent content3 replies d,
    w_requests (snd run) = [] ++ sent ++ [(content3, config_at (3 # 10))] /\
    replay play three_replies (sent ++ [(content3, config_at (3 # 10))]) =
      (replies ++ [Ok reply_with_debug], w_oracle (snd run)) /\
    parse_json_from_response json_loads reply_with_debug = Ok (JObject d) /\
    dict_keys d = [s_ "overall_score"; s_ "_debug"] /\
    [(s_ "overall_score", JInt 82)] =
      filter (fun kv => negb (starts_with_underscore (fst kv))) d.
Proof.
  intros run.
  assert (Hfst : fst run = Ok [(s_ "overall_score", JInt 82)])
    by (vm_compute; reflexivity).
  assert (Hrun : run = (Ok [(s_ "overall_score", JInt 82)], snd run))
    by (rewrite <- Hfst; apply surjective_pairing).
  split; [exact Hfst|].
  destruct (proj2 (proj2
    (@final_report_strips_underscore_keys nat toy_fitz_open
       toy_convert_from_bytes toy_save_jpeg toy_b64encode json_loads toy_dumps
       script play toy_step1 toy_step2_job toy_step3_job
       toy_step2_ats toy_step3_ats))
    JOB_MATCHING seven_pages (s_ "Rust") (World three_replies [] [])
    [(s_ "overall_score", JInt 82)] (snd run) Hrun)
    as (sent & content3 & replies & text3 & d
        & Hlog & Hplay & Hparse & Hrep & _).
  assert (Htext : text3 = reply_with_debug).
  { cbn [w_oracle w_requests] in Hlog, Hplay.
    assert (Hall : fst (replay play three_replies (w_requests (snd run))) =
                   [Ok reply_small; Ok reply_small; Ok reply_with_debug])
      by (vm_compute; reflexivity).
    rewrite Hlog in Hall. cbn [app] in Hall. rewrite Hplay in Hall.
    cbn [fst] in Hall.
    change [Ok reply_small; Ok reply_small; Ok reply_with_debug]
      with ([Ok reply_small; Ok reply_small] ++ [Ok reply_with_debug]) in Hall.
    apply app_inj_tail in Hall as [_ Hall]. now inversion Hall. }
  subst text3.
  exists sent, content3, replies, d.
  split; [exact Hlog|]. split; [exact Hplay|]. split; [exact Hparse|].
  split; [|exact Hrep].
  vm_compute in Hparse. inversion Hparse. reflexivity.
Defined.

Lemma prepared_text_part_witness :
  exists excerpt images,
    toy_prepare seven_pages (Some (s_ "Rust")) (s_ "P") true =
      TextPart (s_ "P" ++ resume_label ++ excerpt ++ ellipsis
                       ++ job_block (Some (s_ "Rust"))) :: images /\
    excerpt = s_ "AAAAAAA" /\ length images = 3.
Proof.
  destruct (@prepared_text_part nat toy_fitz_open toy_convert_from_bytes
              toy_save_jpeg toy_b64encode seven_pages (Some (s_ "Rust"))
              (s_ "P") true)
    as (excerpt & images & Hc & _ & He & _).
  exists excerpt, images. split; [exact Hc|].
  split; [rewrite He; reflexivity|].
  unfold toy_prepare in Hc. vm_compute in Hc.
  inversion Hc; subst images. reflexivity.
Defined.

(** A job description that is present and empty adds no block: the text
    part is the one of a content without job description. *)
Lemma empty_job_description_counterexample :
  toy_prepare seven_pages (Some []) (s_ "P") false =
    [TextPart (text_with_block (s_ "P") (s_ "AAAAAAA") None)] /\
  toy_prepare seven_pages (Some []) (s_ "P") false <>
    [TextPart (text_with_block (s_ "P") (s_ "AAAAAAA") (Some []))] /\
  toy_prepare seven_pages (Some []) (s_ "P") false =
    toy_prepare seven_pages None (s_ "P") false.
Proof.
  vm_compute. repeat split; try reflexivity. discriminate.
Qed.

Lemma image_bounds_witness :
  length (convert_pdf_to_images toy_convert_from_bytes seven_pages
                                (Z.of_nat 5)) <= 5 /\
  length (filter is_image_part
            (toy_prepare seven_pages None (s_ "P") true)) <= 3.
Proof.
  destruct (@image_bounds nat toy_fitz_open toy_convert_from_bytes
              toy_save_jpeg toy_b64encode) as (Hr & _ & Hc).
  split; [apply Hr | apply Hc].
Defined.

Lemma stage_contents_witness :
  let run := toy_analyze JOB_MATCHING seven_pages (s_ "Rust")
                         (World three_replies [] []) in
  fst run = Ok [(s_ "overall_score", JInt 82)] /\
  exists prompt2 prompt3 n1 n2 n3,
    w_requests (snd run) =
      chain_log
        (toy_prepare seven_pages None toy_step1 true)
        (toy_prepare seven_pages (Some (s_ "Rust")) prompt2 false)
        (toy_prepare seven_pages (Some (s_ "Rust")) prompt3 false)
        n1 n2 n3 /\
    chain_counts (fst run) n1 n2 n3.
Proof.
  intros run. split; [vm_compute; reflexivity|].
  destruct (@stage_contents nat toy_fitz_open toy_convert_from_bytes
              toy_save_jpeg toy_b64encode json_loads toy_dumps script play
              toy_step1 toy_step2_job toy_step3_job toy_step2_ats
              toy_step3_ats JOB_MATCHING seven_pages (s_ "Rust")
              (World three_replies [] []) (fst run) (snd run))
    as (p2 & p3 & n1 & n2 & n3 & Hlog & Hn & _ & H2 & H3 & _).
  - symmetry. apply surjective_pairing.
  - exists p2, p3, n1, n2, n3. split; [|exact Hn].
    cbv zeta in Hlog, H2, H3. cbn [stage_job_description] in *.
    unfold toy_prepare. unfold prepare in H2, H3. rewrite <- H2, <- H3.
    exact Hlog.
Defined.

Lemma name_without_pdf (name : str) :
  endswith name (s_ ".pdf") = false ->
  ~ (exists stem, name = stem ++ s_ ".pdf").
Proof.
  intros E [stem ->]. now rewrite endswith_app in E.
Qed.

Lemma invalid_input_rejected_witness :
  let w := World three_replies [] [] in
  rejects (post_analyze_job_matching toy_fitz_open toy_convert_from_bytes
             toy_save_jpeg toy_b64encode json_loads toy_dumps play
             toy_step1 toy_step2_job toy_step3_job toy_render
             (Some (UploadFile (s_ "resume.docx") seven_pages))
             (Some (s_ "Rust"))) w /\
  rejects (post_analyze_job_matching toy_fitz_open toy_convert_from_bytes
             toy_save_jpeg toy_b64encode json_loads toy_dumps play
             toy_step1 toy_step2_job toy_step3_job toy_render
             (Some (UploadFile (s_ "resume.pdf") seven_pages))
             (Some (s_ "   "))) w.
Proof.
  intros w. split.
  - apply (proj1 (@invalid_input_rejected nat toy_fitz_open
             toy_convert_from_bytes toy_save_jpeg toy_b64encode json_loads
             toy_dumps script play toy_step1 toy_step2_job toy_step3_job
             toy_step2_ats toy_step3_ats toy_render
             (UploadFile (s_ "resume.docx") seven_pages) (Some (s_ "Rust")) w)).
    apply name_without_pdf. vm_compute. reflexivity.
  - apply (proj1 (proj2 (@invalid_input_rejected nat toy_fitz_open
             toy_convert_from_bytes toy_save_jpeg toy_b64encode json_loads
             toy_dumps script play toy_step1 toy_step2_job toy_step3_job
             toy_step2_ats toy_step3_ats toy_render
             (UploadFile (s_ "resume.pdf") seven_pages) (Some (s_ "   ")) w))).
    right. exists (s_ "   "). split; reflexivity.
Defined.

Lemma extraction_failure_not_fatal_witness :
  extract_text_from_pdf toy_fitz_open [] = [] /\
  (forall max_pages, convert_pdf_to_images toy_convert_from_bytes [] max_pages = []) /\
  toy_prepare [] None toy_step1 true =
    [TextPart (toy_step1 ++ resume_label ++ ellipsis)] /\
  exists more,
    w_requests (snd (toy_analyze ATS_ONLY [] [] (World three_replies [] []))) =
    ([TextPart (toy_step1 ++ resume_label ++ ellipsis)], config_at (1 # 10)) :: more.
Proof.
  destruct (@extraction_failure_not_fatal nat toy_fitz_open
              toy_convert_from_bytes toy_save_jpeg toy_b64encode json_loads
              toy_dumps script play toy_step1 toy_step2_job toy_step3_job
              toy_step2_ats toy_step3_ats [] ATS_ONLY []
              (World three_replies [] []))
    as (H1 & _ & H3 & (more & H4) & H5).
  split; [apply H1; reflexivity|].
  split; [apply H3; reflexivity|].
  split; [apply H5; reflexivity|].
  exists more. exact H4.
Defined.


(** * Further properties of the response parser *)

Lemma slice_substring (s : str) (a b : nat) :
  exists x y, s = x ++ slice s a b ++ y.
Proof.
  unfold slice. exists (firstn a s), (skipn (b - a) (skipn a s)).
  now rewrite firstn_skipn, firstn_skipn.
Qed.

(** X1. What the parser returns is what the decoder made of one contiguous
    piece of the reply. *)
Theorem parse_returns_decoded_substring (loads : str -> option json)
    (text : str) (data : json) :
  parse_json_from_response loads text = Ok data ->
  exists before piece after,
    text = before ++ piece ++ after /\ loads piece = Some data.
Proof.
  unfold parse_json_from_response, parse_json_try. intros H.
  destruct (re_search fence_re text) as [m|].
  - destruct (slice_substring text (sp_start (m_group1 m)) (sp_end (m_group1 m)))
      as (x & y & E).
    exists x, (group1 text m), y. split; [exact E|].
    destruct (loads (group1 text m)); [|discriminate]. congruence.
  - destruct (re_search object_re text) as [m|]; [|discriminate].
    set (e := balance_braces _ _ _ _ _ _) in H.
    destruct (m_start m <? e); [|discriminate].
    destruct (slice_substring text (m_start m) e) as (x & y & E).
    exists x, (slice text (m_start m) e), y. split; [exact E|].
    destruct (loads (slice text (m_start m) e)); [|discriminate]. congruence.
Qed.

Lemma parse_returns_decoded_substring_witness :
  exists before piece after,
    reply_with_prose = before ++ piece ++ after /\
    json_loads piece =
      Some (JObject [(s_ "overall_score", JInt 82);
                     (s_ "notes", JString (s_ "uses {braces} inside"))]).
Proof.
  apply (@parse_returns_decoded_substring json_loads reply_with_prose).
  vm_compute. reflexivity.
Defined.

(** Where the balancer stops: at its initial [end_pos], or just after a
    closing brace of the text. *)
Lemma balance_braces_stops (s : str) : forall i d ins esc e0,
  balance_braces s i d ins esc e0 = e0 \/
  exists t r, s = t ++ rbrace :: r /\
              balance_braces s i d ins esc e0 = i + length t + 1.
Proof.
  induction s as [|c s IH]; intros i d ins esc e0; [now left|].
  assert (Hnext : forall d' ins' esc',
    balance_braces s (S i) d' ins' esc' e0 = e0 \/
    exists t r, c :: s = t ++ rbrace :: r /\
                balance_braces s (S i) d' ins' esc' e0 = i + length t + 1).
  { intros d' ins' esc'.
    destruct (IH (S i) d' ins' esc' e0) as [H|(t & r & -> & H)]; [now left|].
    right. exists (c :: t), r. split; [reflexivity|]. rewrite H. simpl. lia. }
  simpl. destruct esc; [apply Hnext|].
  destruct (Ascii.eqb c bsl); [apply Hnext|].
  cbn [negb andb].
  destruct (negb (if Ascii.eqb c dq && true then negb ins else ins));
    [|apply Hnext].
  destruct (Ascii.eqb c lbrace); [apply Hnext|].
  destruct (Ascii.eqb_spec c rbrace) as [->|_]; [|apply Hnext].
  destruct (d - 1 =? 0)%Z; [|apply Hnext].
  right. exists [], s. split; [reflexivity | simpl; lia].
Qed.

(** X2. Without a fenced block, a result is the decoding of a piece of the
    reply that starts like an object, with an opening brace, and ends with
    a closing brace. *)
Theorem unfenced_result_is_braced (loads : str -> option json)
    (text : str) (data : json) :
  ~ occurs fence_start text ->
  parse_json_from_response loads text = Ok data ->
  exists before middle after,
    text = before ++ (lbrace :: middle ++ [rbrace]) ++ after /\
    object_start (lbrace :: middle ++ rbrace :: after) /\
    loads (lbrace :: middle ++ [rbrace]) = Some data.
Proof.
  intros Hfence. unfold parse_json_from_response, parse_json_try.
  rewrite (no_fence_search Hfence).
  destruct (re_search object_re text) as [m|] eqn:Em; [|discriminate].
  apply search_from_found in Em as (pre & suf & -> & Hst & Hm).
  simpl in Hst. rewrite Hst, skipn_prefix.
  apply match_here_sound, matches_object in Hm.
  destruct (balance_braces_stops suf (length pre) 0 false false (length pre))
    as [-> | (t & r & Hsuf & ->)].
  - rewrite Nat.ltb_irrefl. discriminate.
  - replace (length pre <? length pre + length t + 1) with true
      by (symmetry; apply Nat.ltb_lt; lia).
    assert (Hsl : slice (pre ++ suf) (length pre) (length pre + length t + 1)
                  = t ++ [rbrace]).
    { rewrite Hsuf.
      pose proof (slice_middle pre (t ++ [rbrace]) r) as E.
      rewrite length_app in E. simpl in E.
      rewrite <- app_assoc in E. simpl in E.
      now rewrite Nat.add_assoc in E. }
    rewrite Hsl.
    destruct t as [|c t].
    + exfalso. destruct Hm as (ws & key & ws' & rest & E & _).
      rewrite Hsuf in E. inversion E.
    + assert (c = lbrace) as ->.
      { destruct Hm as (ws & key & ws' & rest & E & _).
        rewrite Hsuf in E. now inversion E. }
      simpl in Hsuf. intros H. exists pre, t, r.
      split; [rewrite Hsuf; simpl; now rewrite <- app_assoc|].
      split; [now rewrite <- Hsuf|].
      simpl in H. destruct (loads (lbrace :: t ++ [rbrace]));
        [congruence | discriminate].
Qed.

Lemma unfenced_result_is_braced_witness :
  exists before middle after,
    reply_with_prose = before ++ (lbrace :: middle ++ [rbrace]) ++ after /\
    object_start (lbrace :: middle ++ rbrace :: after) /\
    json_loads (lbrace :: middle ++ [rbrace]) =
      Some (JObject [(s_ "overall_score", JInt 82);
                     (s_ "notes", JString (s_ "uses {braces} inside"))]).
Proof.
  apply (@unfenced_result_is_braced json_loads reply_with_prose).
  - apply search_none_no_fence. vm_compute. reflexivity.
  - vm_compute. reflexivity.
Defined.

Lemma balance_inside_string lit :
  string_body lit ->
  forall k i d e,
    balance_braces (lit ++ k) i d true false e =
    balance_braces k (i + length lit) d true false e.
Proof.
  induction 1 as [|c s Hq Hb _ IH|c s _ IH]; intros k i d e.
  - simpl. f_equal. lia.
  - simpl. rewrite (eqb_neq_false Hb), (eqb_neq_false Hq); simpl.
    rewrite IH. f_equal. lia.
  - simpl. rewrite IH. f_equal. lia.
Qed.

Lemma balance_string_tail lit :
  string_tail lit ->
  forall i d e, balance_braces lit i d true false e = e.
Proof.
  intros [l Hl | l Hl] i d e.
  - rewrite <- (app_nil_r l). now rewrite balance_inside_string.
  - now rewrite balance_inside_string.
Qed.

Lemma balance_unclosed s :
  unclosed s ->
  forall i d e, (0 < d)%Z -> balance_braces s i d false false e = e.
Proof.
  induction 1 as [inner Hb | inner lit Hb Hlit | inner rest Hb _ IH];
    intros i d e Hd.
  - rewrite <- (app_nil_r inner). now rewrite balance_balanced.
  - rewrite balance_balanced by assumption. simpl.
    now apply balance_string_tail.
  - rewrite balance_balanced by assumption. simpl. apply IH. lia.
Qed.

(** X3. A reply without a fenced block whose first object is never closed,
    because the reply stops, or stops inside a string literal, or inside a
    nested object, is rejected: no partial object is returned. *)
Theorem unclosed_object_rejected (loads : str -> option json)
    (pre tail : str) :
  ~ occurs fence_start (pre ++ lbrace :: tail) ->
  first_after object_start pre (lbrace :: tail) ->
  unclosed tail ->
  parse_json_from_response loads (pre ++ lbrace :: tail) =
  Raise (ValueError msg_failed).
Proof.
  intros Hfence Hfirst Htail.
  unfold parse_json_from_response, parse_json_try.
  rewrite (no_fence_search Hfence).
  destruct (first_object_search Hfirst) as (m & -> & ->).
  rewrite skipn_prefix. simpl balance_braces.
  rewrite (balance_unclosed Htail) by lia.
  now rewrite Nat.ltb_irrefl.
Qed.

Lemma unclosed_object_rejected_witness :
  parse_json_from_response json_loads reply_cut_short =
  Raise (ValueError msg_failed).
Proof.
  apply (@unclosed_object_rejected json_loads (s_ "Sure! ")
           (quoted (s_ "notes") ++ s_ ": " ++ dq :: s_ "uses {braces")).
  - apply search_none_no_fence. vm_compute. reflexivity.
  - apply first_after_no_brace.
    + apply matches_object.
      apply (@match_here_sound object_re _ 0 (Span 0 0) (9, Span 0 0)).
      vm_compute. reflexivity.
    + vm_compute. intuition discriminate.
  - rewrite app_assoc. apply un_string.
    + apply balanced_app.
      * apply (@bal_string (s_ "notes") []); [|constructor].
        repeat (apply sb_char; [discriminate|discriminate|]). apply sb_nil.
      * repeat (apply bal_char; [discriminate..|]). apply bal_nil.
    + apply st_body.
      repeat (apply sb_char; [discriminate|discriminate|]). apply sb_nil.
Defined.

(** ** The fenced block *)

Section GreedyLazy.

Variable k : str -> nat -> span -> option (nat * span).
Variable p : ascii -> bool.

(** A greedy repetition that can take all of [taken] and go on does so. *)
Lemma star_greedy_takes taken : forall rest i g m,
  forallb p taken = true ->
  star_greedy k p rest (i + length taken) g = Some m ->
  star_greedy k p (taken ++ rest) i g = Some m.
Proof.
  induction taken as [|a t IH]; intros rest i g m Ht Hk.
  - simpl in *. now rewrite Nat.add_0_r in Hk.
  - simpl in Ht. apply andb_true_iff in Ht as [Ha Ht].
    simpl. rewrite Ha.
    rewrite (IH rest (S i) g m Ht); [reflexivity|].
    now replace (S i + length t) with (i + length (a :: t)) by (simpl; lia).
Qed.

Lemma star_greedy_stops rest i g :
  (forall c r, rest = c :: r -> p c = false) ->
  star_greedy k p rest i g = k rest i g.
Proof.
  intros Hc. destruct rest as [|c r]; [reflexivity|].
  simpl. now rewrite (Hc c r eq_refl).
Qed.

(** A lazy repetition goes on to the first place where the rest of the
    pattern matches. *)
Lemma star_lazy_first taken : forall rest i g m,
  forallb p taken = true ->
  (forall a b, taken = a ++ b -> b <> [] ->
               k (b ++ rest) (i + length a) g = None) ->
  k rest (i + length taken) g = Some m ->
  star_lazy k p (taken ++ rest) i g = Some m.
Proof.
  induction taken as [|c t IH]; intros rest i g m Ht Hno Hk.
  - simpl in *. rewrite Nat.add_0_r in Hk.
    destruct rest; simpl; now rewrite Hk.
  - simpl in Ht. apply andb_true_iff in Ht as [Hc Ht].
    pose proof (Hno [] (c :: t) eq_refl ltac:(discriminate)) as H0.
    simpl in H0. rewrite Nat.add_0_r in H0.
    simpl. rewrite H0, Hc.
    apply IH; [assumption| |].
    + intros a b -> Hb.
      specialize (Hno (c :: a) b eq_refl Hb). simpl in Hno.
      now replace (S i + length a) with (i + S (length a)) by lia.
    + now replace (S i + length t) with (i + length (c :: t)) by (simpl; lia).
Qed.

End GreedyLazy.

Lemma match_here_lits (l : str) (items : list item) : forall s i g,
  match_here (map Lit l ++ items) (l ++ s) i g =
  match_here items s (i + length l) g.
Proof.
  induction l as [|c l IH]; intros s i g; simpl.
  - now rewrite Nat.add_0_r.
  - rewrite Ascii.eqb_refl, IH. f_equal. lia.
Qed.

Lemma match_here_starG p r :
  match_here (StarG p :: r) = star_greedy (match_here r) p.
Proof. reflexivity. Qed.

Lemma match_here_starL p r :
  match_here (StarL p :: r) = star_lazy (match_here r) p.
Proof. reflexivity. Qed.

Lemma match_here_open r s i g :
  match_here (GOpen :: r) s i g = match_here r s i (Span i (sp_end g)).
Proof. reflexivity. Qed.

Lemma match_here_close r s i g :
  match_here (GClose :: r) s i g = match_here r s i (Span (sp_start g) i).
Proof. reflexivity. Qed.

Lemma match_here_wrong_start c items d s i g :
  d <> c -> match_here (Lit c :: items) (d :: s) i g = None.
Proof. intros H. simpl. now rewrite (eqb_neq_false H). Qed.

(** No closing fence is found while text of the block remains. *)
Lemma no_close_inside (b : str) :
  b <> [] ->
  (forall r c, b = r ++ [c] -> is_space c = false) ->
  ~ In backtick b ->
  forall tail j g,
    star_greedy (match_here (lits "```")) is_space (b ++ tail) j g = None.
Proof.
  induction b as [|c b IH]; intros Hne Hlast Htick tail j g; [congruence|].
  assert (Hc : c <> backtick) by (intros ->; apply Htick; now left).
  assert (Hk : match_here (lits "```") (c :: b ++ tail) j g = None)
    by now apply match_here_wrong_start.
  simpl app. cbn [star_greedy]. rewrite Hk.
  destruct (is_space c) eqn:Hsp; [|reflexivity].
  rewrite IH; [reflexivity| | |].
  - intros ->. now rewrite (Hlast [] c eq_refl) in Hsp.
  - intros r x ->. apply (Hlast (c :: r) x). reflexivity.
  - intros Hin. apply Htick. now right.
Qed.

Lemma trimmed_suffix (a b : str) :
  trimmed (a ++ b) -> forall r c, b = r ++ [c] -> is_space c = false.
Proof.
  intros [_ Hlast] r c ->. apply (Hlast (a ++ r) c). now rewrite app_assoc.
Qed.

(** The match of the fence pattern on a block without backticks. *)
Lemma match_fence_block (ws1 body ws2 rest : str) (i : nat) (g : span) :
  forallb is_space ws1 = true ->
  body <> [] -> trimmed body -> ~ In backtick body ->
  forallb is_space ws2 = true ->
  match_here fence_re
    (s_ "```json" ++ ws1 ++ body ++ ws2 ++ s_ "```" ++ rest) i g =
  Some (i + 7 + length ws1 + length body + length ws2 + 3,
        Span (i + 7 + length ws1) (i + 7 + length ws1 + length body)).
Proof.
  intros Hws1 Hne Htrim Htick Hws2.
  unfold fence_re, lits at 1. rewrite match_here_lits.
  change (length (s_ "```json")) with 7.
  change ([StarG is_space; GOpen; StarL any_char; GClose; StarG is_space]
          ++ lits "```")
    with (StarG is_space :: GOpen :: StarL any_char :: GClose
          :: StarG is_space :: lits "```").
  rewrite match_here_starG.
  apply star_greedy_takes; [assumption|].
  rewrite star_greedy_stops
    by (intros c r E; destruct body as [|x body]; [congruence|];
        inversion E; subst; exact (proj1 Htrim c body eq_refl)).
  rewrite match_here_open, match_here_starL. cbn [sp_end].
  apply star_lazy_first.
  - apply forallb_forall. reflexivity.
  - intros a b E Hb. rewrite match_here_close, match_here_starG.
    subst body. apply no_close_inside; [assumption| |].
    + now apply (trimmed_suffix a).
    + intros Hin. apply Htick. apply in_or_app. now right.
  - rewrite match_here_close, match_here_starG. cbn [sp_start].
    apply star_greedy_takes; [assumption|].
    rewrite star_greedy_stops
      by (intros c r E; inversion E; reflexivity).
    unfold lits. rewrite <- (app_nil_r (map Lit (s_ "```"))).
    rewrite match_here_lits. simpl. do 2 f_equal; lia.
Qed.

Lemma fence_wrong_start c s i g :
  c <> backtick -> match_here fence_re (c :: s) i g = None.
Proof.
  intros H. unfold fence_re, lits. simpl.
  change (Ascii.eqb c "`") with (Ascii.eqb c backtick).
  now rewrite (eqb_neq_false H).
Qed.

Lemma search_from_cons items c s i :
  search_from items (c :: s) i =
  match match_here items (c :: s) i (Span 0 0) with
  | Some (e, g) => Some (Match i e g)
  | None => search_from items s (S i)
  end.
Proof. reflexivity. Qed.

Lemma search_from_skips (a : str) : forall s i,
  ~ In backtick a ->
  search_from fence_re (a ++ s) i = search_from fence_re s (i + length a).
Proof.
  induction a as [|c a IH]; intros s i Htick.
  - simpl. now rewrite Nat.add_0_r.
  - cbn [app length]. rewrite search_from_cons.
    rewrite fence_wrong_start by (intros ->; apply Htick; now left).
    rewrite IH by (intros Hin; apply Htick; now right). f_equal. lia.
Qed.

(** X4. A fenced block marked as JSON, with no backtick before it nor in
    it: the decoder is given the contents of the block without the white
    space around them, and the rest of the reply plays no part. *)
Theorem fenced_block_is_trimmed (loads : str -> option json)
    (before ws1 body ws2 rest : str) :
  ~ In backtick before ->
  forallb is_space ws1 = true ->
  body <> [] -> trimmed body -> ~ In backtick body ->
  forallb is_space ws2 = true ->
  parse_json_from_response loads
    (before ++ s_ "```json" ++ ws1 ++ body ++ ws2 ++ s_ "```" ++ rest) =
  match loads body with
  | Some data => Ok data
  | None => Raise (ValueError msg_failed)
  end.
Proof.
  intros Hbefore Hws1 Hne Htrim Htick Hws2.
  unfold parse_json_from_response, parse_json_try, re_search.
  rewrite search_from_skips by assumption.
  assert (Hm := @match_fence_block ws1 body ws2 rest (0 + length before)
                  (Span 0 0) Hws1 Hne Htrim Htick Hws2).
  destruct (s_ "```json" ++ ws1 ++ body ++ ws2 ++ s_ "```" ++ rest)
    as [|c s] eqn:Es; [discriminate|].
  cbn [search_from]. rewrite Hm. rewrite <- Es.
  unfold group1; cbn [m_group1 sp_start sp_end].
  assert (Hsl :
    slice (before ++ s_ "```json" ++ ws1 ++ body ++ ws2 ++ s_ "```" ++ rest)
          (0 + length before + 7 + length ws1)
          (0 + length before + 7 + length ws1 + length body) = body).
  { pose proof (slice_middle (before ++ s_ "```json" ++ ws1) body
                             (ws2 ++ s_ "```" ++ rest)) as E.
    rewrite !length_app in E. change (length (s_ "```json")) with 7 in E.
    rewrite <- !app_assoc in E.
    replace (0 + length before + 7 + length ws1)
      with (length before + (7 + length ws1)) by lia.
    exact E. }
  rewrite Hsl. now destruct (loads body).
Qed.

Lemma fenced_block_is_trimmed_witness :
  parse_json_from_response json_loads reply_fenced =
  Ok (JObject [(s_ "a", JInt 1)]).
Proof.
  change reply_fenced with
    ((s_ "Here you go:" ++ [nl]) ++ s_ "```json" ++ [nl] ++
     (lbrace :: quoted (s_ "a") ++ s_ ": 1}") ++ [nl] ++ s_ "```" ++
     ([nl] ++ s_ "Thanks")).
  rewrite fenced_block_is_trimmed; [vm_compute; reflexivity|..].
  - vm_compute. intuition discriminate.
  - reflexivity.
  - discriminate.
  - split.
    + intros c r E. inversion E. reflexivity.
    + intros r c E.
      assert (Hlast : last (r ++ [c]) " "%char = c) by apply last_last.
      rewrite <- E in Hlast. vm_compute in Hlast. now subst c.
  - vm_compute. intuition discriminate.
  - reflexivity.
Defined.

(** * Further properties of the document preprocessor *)

Section PreprocessorMore.

Variable image : Type.
Variable fitz_open : list Byte.byte -> option (list (option str)).
Variable convert_from_bytes : list Byte.byte -> option (list image).
Variable save_jpeg : image -> list Byte.byte.
Variable b64encode : list Byte.byte -> str.

Lemma pages_text_concat (texts : list str) : forall acc,
  pages_text (map Some texts) acc = Some (acc ++ concat texts).
Proof.
  induction texts as [|t texts IH]; intros acc; simpl.
  - now rewrite app_nil_r.
  - now rewrite IH, app_assoc.
Qed.

(** X5. When the document opens and every page gives its text, the
    extracted text is the texts of the pages, one after the other in page
    order, with nothing between them. *)
Theorem extracted_text_is_pages_in_order (pdf : list Byte.byte)
    (texts : list str) :
  fitz_open pdf = Some (map Some texts) ->
  extract_text_from_pdf fitz_open pdf = concat texts.
Proof.
  intros E. unfold extract_text_from_pdf. rewrite E.
  now rewrite pages_text_concat.
Qed.

(** X6. The text part is never longer than the prompt, the job description
    and 10045 characters: at most [text_limit], that is 10000, characters of
    the resume, and 45 for the labels and the dots. *)
Theorem text_part_is_bounded (pdf : list Byte.byte) (jd : option str)
    (prompt : str) (include : bool) :
  exists text rest,
    prepare_vision_content fitz_open convert_from_bytes save_jpeg b64encode
                           pdf jd prompt include = TextPart text :: rest /\
    length text <=
      length prompt + (text_limit + 45) +
      match jd with Some j => length j | None => 0 end.
Proof.
  rewrite prepare_vision_content_parts.
  eexists. eexists. split; [reflexivity|].
  rewrite !length_app.
  pose proof (firstn_le_length text_limit
                (extract_text_from_pdf fitz_open pdf)) as Hcut.
  change (length resume_label) with 23.
  change (length ellipsis) with 3.
  assert (Hjd : length (job_block jd) <=
                19 + match jd with Some j => length j | None => 0 end).
  { destruct jd as [[|c j]|]; simpl; lia. }
  lia.
Qed.

(** X7. With images requested and a document that converts to [pages], the
    image parts are the JPEG encodings of the first three pages, in page
    order: all the pages when there are three or fewer. *)
Theorem image_parts_are_first_three (pdf : list Byte.byte) (jd : option str)
    (prompt : str) (pages : list image) :
  convert_from_bytes pdf = Some pages ->
  filter is_image_part
    (prepare_vision_content fitz_open convert_from_bytes save_jpeg b64encode
                            pdf jd prompt true) =
  map (fun img => BlobPart (s_ "image/jpeg") (b64encode (save_jpeg img)))
      (firstn 3 pages) /\
  length (filter is_image_part
    (prepare_vision_content fitz_open convert_from_bytes save_jpeg b64encode
                            pdf jd prompt true)) = Nat.min 3 (length pages).
Proof.
  intros E. rewrite prepare_vision_content_parts.
  cbn [filter is_image_part].
  assert (Hf : forall imgs,
    filter is_image_part (map (image_part save_jpeg b64encode) imgs) =
    map (image_part save_jpeg b64encode) imgs)
    by (induction imgs; simpl; congruence).
  rewrite Hf. unfold convert_pdf_to_images. rewrite E.
  change (slice_to pages default_max_pages) with (firstn 5 pages).
  rewrite firstn_firstn. change (Nat.min 3 5) with 3.
  split; [reflexivity|].
  now rewrite length_map, length_firstn.
Qed.

End PreprocessorMore.

Lemma extracted_text_is_pages_in_order_witness :
  extract_text_from_pdf toy_fitz_open seven_pages = s_ "AAAAAAA".
Proof.
  apply (@extracted_text_is_pages_in_order toy_fitz_open seven_pages
           (repeat (s_ "A") 7)).
  reflexivity.
Defined.

Lemma image_parts_are_first_three_witness :
  length (filter is_image_part (toy_prepare seven_pages None (s_ "P") true)) = 3.
Proof.
  apply (proj2 (@image_parts_are_first_three nat toy_fitz_open
                  toy_convert_from_bytes toy_save_jpeg toy_b64encode
                  seven_pages None (s_ "P") (seq 0 7) eq_refl)).
Defined.

(** * Further properties of the chains and of the handlers *)

Lemma total_app (a b : list Z) : total (a ++ b) = (total a + total b)%Z.
Proof. induction a as [|x a IH]; simpl; [reflexivity | rewrite IH; lia]. Qed.

Section ChainMore.

Variable image : Type.
Variable fitz_open : list Byte.byte -> option (list (option str)).
Variable convert_from_bytes : list Byte.byte -> option (list image).
Variable save_jpeg : image -> list Byte.byte.
Variable b64encode : list Byte.byte -> str.
Variable loads : str -> option json.
Variable dumps : json -> str.
Variable oracle : Type.
Variable generate_content :
  list part -> generation_config -> oracle -> result str * oracle.
Variables STEP1 STEP2_JOB STEP3_JOB STEP2_ATS STEP3_ATS : str.
Variable render : dict -> result str.

#[local] Abbreviation content :=
  (prepare fitz_open convert_from_bytes save_jpeg b64encode).
#[local] Abbreviation chain :=
  (analyze fitz_open convert_from_bytes save_jpeg b64encode loads dumps
           generate_content STEP1 STEP2_JOB STEP3_JOB STEP2_ATS STEP3_ATS).
#[local] Abbreviation job_matching_handler :=
  (api_analyze_resume_job_matching fitz_open convert_from_bytes save_jpeg
     b64encode loads dumps generate_content STEP1 STEP2_JOB STEP3_JOB render).

Lemma costs_refl (w : world oracle) : costs w w 0 0.
Proof.
  exists [], []. rewrite !app_nil_r. repeat split; auto. simpl; lia.
Qed.

Lemma costs_trans (w w1 w2 : world oracle) c1 c2 t1 t2 :
  costs w w1 c1 t1 -> costs w1 w2 c2 t2 -> costs w w2 (c1 + c2) (t1 + t2).
Proof.
  intros (r1 & s1 & Hr1 & Hl1 & Hs1 & Hf1 & Ht1)
         (r2 & s2 & Hr2 & Hl2 & Hs2 & Hf2 & Ht2).
  exists (r1 ++ r2), (s1 ++ s2).
  rewrite Hr2, Hr1, Hs2, Hs1, <- !app_assoc, length_app, total_app.
  repeat split; try lia. now apply Forall_app.
Qed.

Lemma costs_le (w w' : world oracle) c c' t t' :
  costs w w' c t -> c <= c' -> (t <= t')%Z -> costs w w' c' t'.
Proof.
  intros (r & s & Hr & Hl & Hs & Hf & Ht) Hc Htt.
  exists r, s. repeat split; auto; lia.
Qed.

Lemma complete_costs c t (w : world oracle) r w' :
  complete generate_content c t w = (r, w') -> costs w w' 3 6.
Proof.
  unfold complete. rewrite get_gemini_response_unrolled; cbv zeta.
  destruct (generate_content c (config_at t) (w_oracle w)) as [[t1|e1] o1].
  - intros H; inversion H; subst. exists [(c, config_at t)], []; simpl.
    rewrite app_nil_r. repeat split; auto; lia.
  - destruct (generate_content c (config_at t) o1) as [[t2|e2] o2].
    + intros H; inversion H; subst.
      exists [(c, config_at t); (c, config_at t)], [2%Z]; simpl.
      rewrite <- app_assoc. repeat split; auto; try lia.
    + destruct (generate_content c (config_at t) o2) as [r3 o3].
      intros H; inversion H; subst.
      exists [(c, config_at t); (c, config_at t); (c, config_at t)],
             [2%Z; 4%Z]; simpl.
      rewrite <- !app_assoc. repeat split; auto; try lia.
Qed.

Ltac cost_step E :=
  match goal with
  | H : context [complete generate_content ?c ?t ?w] |- _ =>
      let resp := fresh "resp" in
      let e := fresh "e" in
      let w1 := fresh "w" in
      destruct (complete generate_content c t w) as [[resp|e] w1] eqn:E;
      apply complete_costs in E
  end.

Ltac parse_step P :=
  match goal with
  | H : context [parse_json_from_response loads ?x] |- _ =>
      let v := fresh "analysis" in
      let e := fresh "e" in
      destruct (parse_json_from_response loads x) as [v|e] eqn:P
  end.

(** X8. A chain sends at most nine requests and sleeps at most 18 in all,
    in sleeps of 2 or of 4, whatever the service answers. *)
Theorem chain_cost_is_bounded mode pdf jd (w : world oracle) r w' :
  chain mode pdf jd w = (r, w') ->
  exists requests sleeps,
    w_requests w' = w_requests w ++ requests /\ length requests <= 9 /\
    w_slept w' = w_slept w ++ sleeps /\
    Forall (fun d => d = 2%Z \/ d = 4%Z) sleeps /\ (total sleeps <= 18)%Z.
Proof.
  change (chain mode pdf jd w = (r, w') -> costs w w' 9 18).
  destruct mode; unfold analyze, analyze_resume_ats_only,
    analyze_resume_job_matching, bind, parse, lift, ret; cbv zeta; intros H.
  all: cost_step E1; [parse_step P1; [cost_step E2; [parse_step P2;
         [cost_step E3; [parse_step P3|]|]|]|]|].
  all: try (destruct (client_response_of _)).
  all: match goal with
       | H : (_, _) = (_, _) |- _ => inversion H; subst; clear H
       end.
  all: repeat match goal with
         | H1 : costs ?a ?b _ _, H2 : costs ?b ?c _ _ |- _ =>
             pose proof (costs_trans H1 H2); clear H1 H2
         end.
  all: eapply costs_le; [eassumption | lia | lia].
Qed.

Lemma complete_raise c t (w : world oracle) e w' :
  complete generate_content c t w = (Raise e, w') ->
  exists o o', generate_content c (config_at t) o = (Raise e, o').
Proof.
  unfold complete. rewrite get_gemini_response_unrolled; cbv zeta.
  destruct (generate_content c (config_at t) (w_oracle w))
    as [[t1|e1] o1] eqn:E1; [discriminate|].
  destruct (generate_content c (config_at t) o1)
    as [[t2|e2] o2] eqn:E2; [discriminate|].
  destruct (generate_content c (config_at t) o2) as [r3 o3] eqn:E3.
  intros H; inversion H; subst. now exists o2, o3.
Qed.

Lemma parse_raise x e :
  parse_json_from_response loads x = Raise e -> e = ValueError msg_failed.
Proof.
  unfold parse_json_from_response.
  destruct (parse_json_try loads x); congruence.
Qed.

(** X9. Where the exception of a failed chain comes from: it is the error
    of the parser, or the attribute error of a stage-3 result that is not
    an object, or an exception that the service raised.  The
    [RuntimeError] written after the retry loop is never raised by the
    chain itself. *)
Theorem chain_error_provenance mode pdf jd (w : world oracle) e w' :
  chain mode pdf jd w = (Raise e, w') ->
  e = ValueError msg_failed \/
  (exists v, (forall d, v <> JObject d) /\
             e = AttributeError (s_ "'" ++ type_name v ++
                                 s_ "' object has no attribute 'items'")) \/
  (exists c cfg o o', generate_content c cfg o = (Raise e, o')).
Proof.
  destruct mode; unfold analyze, analyze_resume_ats_only,
    analyze_resume_job_matching, bind, parse, lift, ret; cbv zeta; intros H.
  all: repeat
         match goal with
         | H : context [complete generate_content ?c ?t ?w] |- _ =>
             let E := fresh "E" in
             destruct (complete generate_content c t w) as [[? | ?] ?] eqn:E;
             [clear E
             |inversion H; subst; apply complete_raise in E
                as (? & ? & E); right; right; eauto]
         | H : context [parse_json_from_response loads ?x] |- _ =>
             let P := fresh "P" in
             destruct (parse_json_from_response loads x) eqn:P;
             [clear P
             |inversion H; subst; left; now apply parse_raise in P]
         end.
  all: match goal with
       | H : context [client_response_of ?v] |- _ =>
           destruct (client_response_of v) as [|e0] eqn:C; [discriminate|];
           inversion H; subst; right; left; exists v;
           split; [intros d ->; discriminate C
                  |destruct v; inversion C; reflexivity]
       end.
Qed.

Lemma complete_first_try c t o rq sl text o' :
  generate_content c (config_at t) o = (Ok text, o') ->
  complete generate_content c t (World o rq sl) =
  (Ok text, World o' (rq ++ [(c, config_at t)]) sl).
Proof.
  intros E. unfold complete. rewrite get_gemini_response_unrolled; cbv zeta.
  cbn [w_oracle w_requests w_slept]. now rewrite E.
Qed.

(** X10. Three replies that come at the first attempt and parse, the last
    one to an object: the chain sends three requests and does not sleep.
    The prompt of stage 2 is its template with the first placeholder
    replaced by the stage-1 result; the prompt of stage 3 is its template
    with the first placeholder replaced by the stage-1 result and then the
    second by the stage-2 result.  The report is the stage-3 object without
    its underscore keys. *)
Theorem chain_on_good_replies mode pdf jd o0 o1 o2 o3 rq sl
    text1 text2 text3 analysis1 analysis2 final :
  let passed := stage_job_description mode jd in
  let template2 :=
    match mode with ATS_ONLY => STEP2_ATS | JOB_MATCHING => STEP2_JOB end in
  let template3 :=
    match mode with ATS_ONLY => STEP3_ATS | JOB_MATCHING => STEP3_JOB end in
  let prompt2 := replace template2 FIRST (dumps analysis1) in
  let prompt3 :=
    replace (replace template3 FIRST (dumps analysis1))
            SECOND (dumps analysis2) in
  let request1 := (content pdf None STEP1 true, config_at (1 # 10)) in
  let request2 := (content pdf passed prompt2 false, config_at (2 # 10)) in
  let request3 := (content pdf passed prompt3 false, config_at (3 # 10)) in
  generate_content (fst request1) (snd request1) o0 = (Ok text1, o1) ->
  parse_json_from_response loads text1 = Ok analysis1 ->
  generate_content (fst request2) (snd request2) o1 = (Ok text2, o2) ->
  parse_json_from_response loads text2 = Ok analysis2 ->
  generate_content (fst request3) (snd request3) o2 = (Ok text3, o3) ->
  parse_json_from_response loads text3 = Ok (JObject final) ->
  chain mode pdf jd (World o0 rq sl) =
  (Ok (filter (fun kv => negb (starts_with_underscore (fst kv))) final),
   World o3 (rq ++ [request1; request2; request3]) sl).
Proof.
  cbv zeta. cbn [fst snd]. intros G1 P1 G2 P2 G3 P3.
  destruct mode; cbn [stage_job_description] in *;
    unfold analyze, analyze_resume_ats_only, analyze_resume_job_matching,
      bind, parse, lift, ret; cbv zeta;
    rewrite (complete_first_try _ _ G1), P1,
            (complete_first_try _ _ G2), P2,
            (complete_first_try _ _ G3), P3;
    cbn [client_response_of]; now rewrite <- !app_assoc.
Qed.

Lemma nonblank_job_description (jd : str) :
  forallb is_space jd = false ->
  negb (truthy (Some jd)) || str_eqb (strip jd) [] = false.
Proof.
  intros Hb. destruct jd as [|c jd]; [discriminate|]. cbn [truthy negb orb].
  destruct (str_eqb (strip (c :: jd)) []) eqn:E; [|reflexivity].
  apply str_eqb_eq, strip_blank_iff in E. congruence.
Qed.

(** X11. The job-matching handler turns a request down, with a client error
    and nothing sent to the service, exactly when the file name does not end
    in [.pdf] or the job description has no character other than white
    space.  Any other request reaches the service. *)
Theorem job_matching_validation (f : upload_file) (jd : str)
    (w : world oracle) :
  (rejects (job_matching_handler f jd) w <->
   ~ (exists stem, filename f = stem ++ s_ ".pdf") \/
   forallb is_space jd = true) /\
  (~ rejects (job_matching_handler f jd) w ->
   exists first more,
     w_requests (snd (job_matching_handler f jd w)) =
     w_requests w ++ first :: more).
Proof.
  assert (Hrun : endswith (filename f) (s_ ".pdf") = true ->
                 forallb is_space jd = false ->
                 ~ rejects (job_matching_handler f jd) w /\
                 exists first more,
                   w_requests (snd (job_matching_handler f jd w)) =
                   w_requests w ++ first :: more).
  { intros Hname Hjd. unfold rejects, api_analyze_resume_job_matching.
    rewrite Hname, (nonblank_job_description _ Hjd). cbn [negb].
    destruct (analyze_resume_job_matching _ _ _ _ _ _ _ _ _ _
                (file_content f) jd w) as [r w1] eqn:Hrun.
    destruct (@chain_requests image fitz_open convert_from_bytes save_jpeg
                b64encode loads dumps oracle generate_content STEP1
                STEP2_JOB STEP3_JOB STEP2_ATS STEP3_ATS JOB_MATCHING
                (file_content f) jd w r w1 Hrun)
      as (p2 & p3 & n1 & n2 & n3 & Hlog & (Hn1 & _) & _).
    destruct n1 as [|n1]; [lia|]. rewrite chain_log_head in Hlog.
    split.
    - intros (resp & Hresp & code & detail & -> & Hcode).
      destruct r as [report|e]; [destruct (render report)|];
        inversion Hresp; subst; lia.
    - destruct r as [report|e]; [destruct (render report)|];
        cbn [snd]; rewrite Hlog; eauto. }
  assert (Hbad : endswith (filename f) (s_ ".pdf") = false \/
                 forallb is_space jd = true ->
                 rejects (job_matching_handler f jd) w).
  { unfold rejects, api_analyze_resume_job_matching.
    destruct (endswith (filename f) (s_ ".pdf")) eqn:Hname; cbn [negb].
    - intros [?|Hjd]; [discriminate|].
      rewrite (blank_job_description _ Hjd).
      eexists; split; [reflexivity | apply bad_request_is_client_error].
    - intros _.
      eexists; split; [reflexivity | apply bad_request_is_client_error]. }
  destruct (endswith (filename f) (s_ ".pdf")) eqn:Hname;
    destruct (forallb is_space jd) eqn:Hjd.
  - split; [split; [now right | intros _; apply Hbad; now right]|].
    intros Hn. exfalso. apply Hn, Hbad. now right.
  - destruct (Hrun eq_refl eq_refl) as [Hno Hsent].
    split; [|intros _; exact Hsent].
    split; [intros Hr; now apply Hno in Hr|].
    intros [Hstem|?]; [|discriminate].
    exfalso. apply Hstem. now apply endswith_inv.
  - split; [split; [now right | intros _; apply Hbad; now left]|].
    intros Hn. exfalso. apply Hn, Hbad. now left.
  - split; [split; [|intros _; apply Hbad; now left]|].
    + intros _. left. intros Hstem. apply pdf_name in Hstem. congruence.
    + intros Hn. exfalso. apply Hn, Hbad. now left.
Qed.

End ChainMore.

Lemma chain_cost_is_bounded_witness :
  let run := toy_analyze ATS_ONLY seven_pages [] (World slow_start [] []) in
  exists requests sleeps,
    w_requests (snd run) = [] ++ requests /\ length requests <= 9 /\
    w_slept (snd run) = [] ++ sleeps /\
    Forall (fun d => d = 2%Z \/ d = 4%Z) sleeps /\ (total sleeps <= 18)%Z.
Proof.
  intros run.
  apply (@chain_cost_is_bounded nat toy_fitz_open toy_convert_from_bytes
           toy_save_jpeg toy_b64encode json_loads toy_dumps script play
           toy_step1 toy_step2_job toy_step3_job toy_step2_ats toy_step3_ats
           ATS_ONLY seven_pages [] (World slow_start [] []) (fst run)).
  symmetry. apply surjective_pairing.
Defined.

Lemma chain_error_provenance_witness :
  ValueError msg_failed = ValueError msg_failed \/
  (exists v, (forall d, v <> JObject d) /\
             ValueError msg_failed =
             AttributeError (s_ "'" ++ type_name v ++
                             s_ "' object has no attribute 'items'")) \/
  (exists c cfg o o', play c cfg o = (Raise (ValueError msg_failed), o')).
Proof.
  apply (@chain_error_provenance nat toy_fitz_open toy_convert_from_bytes
           toy_save_jpeg toy_b64encode json_loads toy_dumps script play
           toy_step1 toy_step2_job toy_step3_job toy_step2_ats toy_step3_ats
           ATS_ONLY seven_pages [] (World no_json_reply [] [])
           (ValueError msg_failed)
           (World [] [(toy_prepare seven_pages None toy_step1 true,
                       config_at (1 # 10))] [])).
  vm_compute. reflexivity.
Defined.

Lemma chain_on_good_replies_witness :
  fst (toy_analyze JOB_MATCHING seven_pages (s_ "Rust")
                   (World three_replies [] [])) =
  Ok [(s_ "overall_score", JInt 82)].
Proof.
  unfold toy_analyze.
  rewrite (@chain_on_good_replies nat toy_fitz_open toy_convert_from_bytes
             toy_save_jpeg toy_b64encode json_loads toy_dumps script play
             toy_step1 toy_step2_job toy_step3_job toy_step2_ats toy_step3_ats
             JOB_MATCHING seven_pages (s_ "Rust")
             three_replies [Ok reply_small; Ok reply_with_debug]
             [Ok reply_with_debug] [] [] []
             reply_small reply_small reply_with_debug
             (JObject [(s_ "a", JInt 1)]) (JObject [(s_ "a", JInt 1)])
             [(s_ "overall_score", JInt 82); (s_ "_debug", JString (s_ "x"))]);
    try reflexivity; vm_compute; reflexivity.
Defined.

Lemma job_matching_validation_witness :
  ~ rejects (api_analyze_resume_job_matching toy_fitz_open
               toy_convert_from_bytes toy_save_jpeg toy_b64encode json_loads
               toy_dumps play toy_step1 toy_step2_job toy_step3_job
               toy_render (UploadFile (s_ "resume.pdf") seven_pages) (s_ "Rust"))
            (World three_replies [] []).
Proof.
  intros Hr.
  apply (proj1 (@job_matching_validation nat toy_fitz_open
                  toy_convert_from_bytes toy_save_jpeg toy_b64encode
                  json_loads toy_dumps script play toy_step1 toy_step2_job
                  toy_step3_job toy_step2_ats toy_step3_ats toy_render
                  (UploadFile (s_ "resume.pdf") seven_pages) (s_ "Rust")
                  (World three_replies [] []))) in Hr.
  destruct Hr as [Hname | Hblank].
  - apply Hname. now exists (s_ "resume").
  - discriminate Hblank.
Defined.

(** * The dashboard *)

Lemma lower_char_idempotent (c : ascii) : lower_char (lower_char c) = lower_char c.
Proof. destruct c as [[] [] [] [] [] [] [] []]; reflexivity. Qed.

Lemma lower_idempotent (s : str) : lower (lower s) = lower s.
Proof.
  unfold lower. rewrite map_map. apply map_ext. apply lower_char_idempotent.
Qed.

(** The bucket the summary picks for an issue is the class that
    [get_issue_class] gives to its severity. *)
Lemma count_issue_class (counts : issue_counts) (issue : json) counts' :
  count_issue counts issue = Done counts' ->
  count_high counts' =
    count_high counts + count_class (s_ "issue-high") [issue] /\
  count_medium counts' =
    count_medium counts + count_class (s_ "issue-medium") [issue] /\
  count_low counts' =
    count_low counts + count_class (s_ "issue-low") [issue].
Proof.
  unfold count_issue, py_get.
  destruct issue as [| | | | |l|d]; try discriminate.
  unfold count_class. cbn [and_then filter].
  unfold severity_class, value_or.
  destruct (match dict_get d (s_ "severity") with
            | Some x => x
            | None => JString (s_ "medium")
            end) as [| | | |s| |] eqn:E; try discriminate.
  cbn [py_lower and_then].
  unfold get_issue_class. rewrite lower_idempotent.
  destruct (str_eqb (lower s) (s_ "error") || str_eqb (lower s) (s_ "high")).
  - intros H; inversion H; subst; simpl. lia.
  - destruct (str_eqb (lower s) (s_ "warning")
              || str_eqb (lower s) (s_ "medium"));
      intros H; inversion H; subst; simpl; lia.
Qed.

Lemma count_class_app class (a b : list json) :
  count_class class (a ++ b) = count_class class a + count_class class b.
Proof. unfold count_class. now rewrite filter_app, length_app. Qed.

Lemma count_issues_class (issues : list json) : forall counts counts',
  for_each count_issue issues counts = Done counts' ->
  count_high counts' =
    count_high counts + count_class (s_ "issue-high") issues /\
  count_medium counts' =
    count_medium counts + count_class (s_ "issue-medium") issues /\
  count_low counts' =
    count_low counts + count_class (s_ "issue-low") issues.
Proof.
  induction issues as [|i issues IH]; intros counts counts' H.
  - inversion H; subst. unfold count_class; simpl. lia.
  - cbn [for_each] in H.
    destruct (count_issue counts i) as [c1|] eqn:E; [|discriminate].
    cbn [and_then] in H.
    apply count_issue_class in E. apply IH in H.
    change (i :: issues) with ([i] ++ issues).
    rewrite !count_class_app. lia.
Qed.

Lemma count_categories_class (cats : list json) : forall counts counts',
  for_each count_category cats counts = Done counts' ->
  let issues :=
    flat_map (fun c => iter_items (value_or c (s_ "issues") (JArray []))) cats in
  count_high counts' =
    count_high counts + count_class (s_ "issue-high") issues /\
  count_medium counts' =
    count_medium counts + count_class (s_ "issue-medium") issues /\
  count_low counts' =
    count_low counts + count_class (s_ "issue-low") issues.
Proof.
  induction cats as [|c cats IH]; intros counts counts' H.
  - inversion H; subst. unfold count_class; simpl. lia.
  - cbn [for_each] in H.
    destruct (count_category counts c) as [c1|] eqn:E; [|discriminate].
    cbn [and_then] in H. apply IH in H. cbv zeta in H.
    unfold count_category, py_get in E.
    destruct c as [| | | | |l|d]; try discriminate.
    cbn [and_then] in E.
    cbv zeta. cbn [flat_map value_or].
    set (v := match dict_get d (s_ "issues") with
              | Some x => x
              | None => JArray []
              end) in *.
    destruct (py_iter v) as [issues|] eqn:Ei; [|discriminate].
    assert (Hi : iter_items v = issues) by (unfold iter_items; now rewrite Ei).
    rewrite Hi.
    cbn [and_then] in E. apply count_issues_class in E.
    rewrite !count_class_app. lia.
Qed.

Lemma severity_class_cases (i : json) :
  severity_class i = s_ "issue-high" \/ severity_class i = s_ "issue-medium" \/
  severity_class i = s_ "issue-low".
Proof.
  unfold severity_class.
  assert (H : forall s, get_issue_class s = s_ "issue-high" \/
                        get_issue_class s = s_ "issue-medium" \/
                        get_issue_class s = s_ "issue-low").
  { intros s. unfold get_issue_class.
    destruct (_ || _); [now left|]. destruct (_ || _); auto. }
  destruct (value_or i _ _); apply H.
Qed.

Lemma count_class_total (issues : list json) :
  count_class (s_ "issue-high") issues + count_class (s_ "issue-medium") issues
  + count_class (s_ "issue-low") issues = length issues.
Proof.
  induction issues as [|i issues IH]; [reflexivity|].
  change (i :: issues) with ([i] ++ issues).
  rewrite !count_class_app, length_app, <- IH.
  unfold count_class at 1 3 5. cbn [filter].
  destruct (severity_class_cases i) as [-> | [-> | ->]]; simpl; lia.
Qed.

(** X12. When the summary of the dashboard is computed, its three counts
    are the numbers of issues, among all those that the categories of the
    report list, whose severity [get_issue_class] puts in [issue-high], in
    [issue-medium] and in [issue-low]; the severity is taken in lower case
    and is [medium] for an issue that has none.  Every listed issue is
    counted once, in a category with [issues_found] 0 too. *)
Theorem summary_counts_by_class (results : json) (counts : issue_counts) :
  summary_counts results = Done counts ->
  count_high counts = count_class (s_ "issue-high") (all_issues results) /\
  count_medium counts = count_class (s_ "issue-medium") (all_issues results) /\
  count_low counts = count_class (s_ "issue-low") (all_issues results) /\
  count_high counts + count_medium counts + count_low counts =
    length (all_issues results).
Proof.
  unfold summary_counts, py_item, all_issues. intros H.
  destruct results as [| | | | |l|r]; try discriminate.
  cbn [value_or].
  destruct (dict_get r (s_ "categories")) as [cats|]; [|discriminate].
  cbn [and_then] in H.
  destruct (py_iter cats) as [cl|] eqn:Ei; [|discriminate].
  assert (Hi : iter_items cats = cl) by (unfold iter_items; now rewrite Ei).
  rewrite Hi. cbn [and_then] in H. apply count_categories_class in H. cbv zeta in H.
  cbn [count_high count_medium count_low Nat.add] in H.
  destruct H as (Hh & Hm & Hl).
  split; [exact Hh|]. split; [exact Hm|]. split; [exact Hl|].
  rewrite Hh, Hm, Hl. apply count_class_total.
Qed.

Lemma summary_counts_by_class_witness :
  count_high (IssueCounts 1 1 1) =
    count_class (s_ "issue-high") (all_issues sample_results) /\
  count_medium (IssueCounts 1 1 1) =
    count_class (s_ "issue-medium") (all_issues sample_results) /\
  count_low (IssueCounts 1 1 1) =
    count_class (s_ "issue-low") (all_issues sample_results) /\
  count_high (IssueCounts 1 1 1) + count_medium (IssueCounts 1 1 1)
  + count_low (IssueCounts 1 1 1) = length (all_issues sample_results).
Proof.
  apply summary_counts_by_class. vm_compute. reflexivity.
Defined.

Lemma dict_get_set (d : dict) (k k' : str) (v : json) :
  dict_get (dict_set d k v) k' =
  if str_eqb k k' then Some v else dict_get d k'.
Proof.
  induction d as [|[k1 v1] d IH]; cbn [dict_get dict_set].
  - reflexivity.
  - destruct (str_eqb k1 k) eqn:E1; cbn [dict_get].
    + apply str_eqb_eq in E1. subst k1.
      destruct (str_eqb k k'); reflexivity.
    + destruct (str_eqb k1 k') eqn:E2.
      * destruct (str_eqb k k') eqn:E3; [|reflexivity].
        apply str_eqb_eq in E2. apply str_eqb_eq in E3. subst k' k1.
        assert (T : str_eqb k k = true) by now apply str_eqb_eq.
        congruence.
      * exact IH.
Qed.

Lemma find_app_first (A : Type) (f : A -> bool) (a b : list A) :
  find f (a ++ b) = match find f a with Some x => Some x | None => find f b end.
Proof.
  induction a as [|x a IH]; simpl; [reflexivity|]. now destruct (f x).
Qed.

(** The dict built by the comprehension holds, for each name, the score of
    the last entry with that name. *)
Lemma radar_entries_last (cats : list json) : forall d0 d,
  for_each radar_entry cats d0 = Done d ->
  forall name,
    dict_get d name =
    match find (fun kv => str_eqb (fst kv) name) (rev (named_scores cats)) with
    | Some kv => Some (snd kv)
    | None => dict_get d0 name
    end.
Proof.
  induction cats as [|c cats IH]; intros d0 d H name.
  - inversion H; subst. reflexivity.
  - cbn [for_each] in H.
    destruct (radar_entry d0 c) as [d1|] eqn:E; [|discriminate].
    cbn [and_then] in H. rewrite (IH _ _ H name).
    unfold named_scores. cbn [flat_map]. fold (named_scores cats).
    rewrite rev_app_distr, find_app_first.
    destruct (find _ (rev (named_scores cats))); [reflexivity|].
    unfold radar_entry, py_item in E.
    destruct c as [| | | | |l|dc]; try discriminate.
    destruct (dict_get dc (s_ "category")) as [key|]; [|discriminate].
    cbn [and_then] in E.
    destruct (dict_get dc (s_ "score")) as [value|]; [|discriminate].
    cbn [and_then] in E.
    destruct key; cbn [hashable] in E; inversion E; subst; try reflexivity.
    simpl. rewrite dict_get_set. now destruct (str_eqb s name).
Qed.

(** X13. The radar chart has six points: the five categories in their fixed
    order and the first one again, which closes the line.  Each point is the
    score of the last entry of the report with that category, and 0 when
    the report has none; entries of other categories are not plotted. *)
Theorem radar_plots_last_scores (categories : json) (values : list json)
    (labels : option (list str)) :
  radar_data categories = Done (values, labels) ->
  values =
    map (fun name => last_score name (named_scores (iter_items categories)))
        [s_ "content"; s_ "format"; s_ "sections"; s_ "skills"; s_ "style";
         s_ "content"] /\
  labels = Some [s_ "Content"; s_ "Format"; s_ "Sections"; s_ "Skills";
                 s_ "Style"; s_ "Content"] /\
  length values = 6 /\
  nth 5 values JNull = nth 0 values JNull.
Proof.
  unfold radar_data. intros H.
  destruct (py_iter categories) as [cats|] eqn:Ei; [|discriminate].
  assert (Hi : iter_items categories = cats)
    by (unfold iter_items; now rewrite Ei).
  cbn [and_then] in H.
  destruct (for_each radar_entry cats []) as [d|] eqn:E; [|discriminate].
  cbn [and_then] in H. cbv zeta in H.
  injection H as Hvals Hlabs. subst values labels.
  pose proof (@radar_entries_last cats [] d E) as Hget.
  assert (Hv : forall name,
    match dict_get d name with Some v => v | None => JInt 0 end =
    last_score name (named_scores cats)).
  { intros name. rewrite Hget. unfold last_score. cbn [dict_get].
    now destruct (find _ (rev (named_scores cats))). }
  rewrite Hi. unfold radar_categories. cbn [map app hd length nth].
  rewrite !Hv. repeat split; reflexivity.
Qed.

Lemma radar_plots_last_scores_witness :
  [JInt 90; JInt 0; JInt 0; JInt 55; JInt 40; JInt 90] =
    map (fun name =>
           last_score name (named_scores (iter_items sample_categories)))
        [s_ "content"; s_ "format"; s_ "sections"; s_ "skills"; s_ "style";
         s_ "content"].
Proof.
  apply (@radar_plots_last_scores sample_categories
           [JInt 90; JInt 0; JInt 0; JInt 55; JInt 40; JInt 90]
           (Some [s_ "Content"; s_ "Format"; s_ "Sections"; s_ "Skills";
                  s_ "Style"; s_ "Content"])).
  vm_compute. reflexivity.
Defined.

(** X14. A higher score never gets a lower class: the classes are
    [score-low] below 60, [score-medium] from 60 to 79 and [score-high]
    from 80, so that between two scores in the same class every score has
    that class. *)
Theorem score_class_is_monotone (a b c : Z) :
  (a <= b <= c)%Z ->
  get_score_class a = get_score_class c ->
  get_score_class b = get_score_class a.
Proof.
  unfold get_score_class. intros [Hab Hbc].
  destruct (Z.geb_spec a 80), (Z.geb_spec a 60), (Z.geb_spec b 80),
    (Z.geb_spec b 60), (Z.geb_spec c 80), (Z.geb_spec c 60);
    try lia; try reflexivity; intros Hc; vm_compute in Hc; discriminate.
Qed.

Lemma score_class_is_monotone_witness :
  get_score_class 70 = get_score_class 61.
Proof.
  apply (@score_class_is_monotone 61 70 79); [lia | reflexivity].
Defined.

(** X16. The class of a severity does not depend on the case of its
    letters: two severities that are equal in lower case get the same
    class, and lowering a severity before the call, as the detailed view
    does, changes nothing. *)
Theorem issue_class_ignores_case (a b : str) :
  lower a = lower b ->
  get_issue_class a = get_issue_class b /\
  get_issue_class (lower a) = get_issue_class b.
Proof.
  intros H. unfold get_issue_class.
  rewrite lower_idempotent, H. split; reflexivity.
Qed.

Lemma issue_class_ignores_case_witness :
  get_issue_class (s_ "WARNING") = get_issue_class (s_ "Warning") /\
  get_issue_class (lower (s_ "WARNING")) = get_issue_class (s_ "Warning").
Proof.
  apply (@issue_class_ignores_case (s_ "WARNING") (s_ "Warning")).
  reflexivity.
Defined.

(** * The answers of the ATS-only handler *)

Section HandlerMore.

Variable image : Type.
Variable fitz_open : list Byte.byte -> option (list (option str)).
Variable convert_from_bytes : list Byte.byte -> option (list image).
Variable save_jpeg : image -> list Byte.byte.
Variable b64encode : list Byte.byte -> str.
Variable loads : str -> option json.
Variable dumps : json -> str.
Variable oracle : Type.
Variable generate_content :
  list part -> generation_config -> oracle -> result str * oracle.
Variables STEP1 STEP2_JOB STEP3_JOB STEP2_ATS STEP3_ATS : str.
Variable render : dict -> result str.

#[local] Abbreviation ats_only_chain :=
  (analyze_resume_ats_only fitz_open convert_from_bytes save_jpeg
     b64encode loads dumps generate_content STEP1 STEP2_ATS STEP3_ATS).
#[local] Abbreviation ats_only_handler :=
  (api_analyze_resume_ats_only fitz_open convert_from_bytes save_jpeg
     b64encode loads dumps generate_content STEP1 STEP2_ATS STEP3_ATS render).

Lemma chain_log_length (c1 c2 c3 : list part) (n1 n2 n3 : nat) :
  length (chain_log c1 c2 c3 n1 n2 n3) = n1 + n2 + n3.
Proof.
  unfold chain_log. rewrite !length_app, !repeat_length. lia.
Qed.

(** X15. The ATS-only handler answers in one of four ways.  A file whose
    name does not end in [.pdf] gets status 400 and nothing is sent to the
    service.  For any other file the chain runs.  When it returns a report,
    after three to nine requests and without a key that begins with an
    underscore, the answer is that report if it can be rendered, and status
    500 with the text of the serializer's exception if it cannot.  When the
    chain raises, after one to nine requests, the answer is status 500 with
    the text of its exception. *)
Theorem ats_only_answers (f : upload_file) (w w' : world oracle)
    (resp : response) :
  ats_only_handler f w = (resp, w') ->
  (~ (exists stem, filename f = stem ++ s_ ".pdf") /\
   resp = HTTPException 400 (s_ "Only PDF files are supported") /\
   w' = w) \/
  ((exists stem, filename f = stem ++ s_ ".pdf") /\
   exists sent,
     w_requests w' = w_requests w ++ sent /\
     ((exists report,
         ats_only_chain (file_content f) w = (Ok report, w') /\
         3 <= length sent <= 9 /\
         (forall k, In k (dict_keys report) ->
                    starts_with_underscore k = false) /\
         ((exists body, render report = Ok body /\
                        resp = JSONResponse report) \/
          (exists e, render report = Raise e /\
                     resp = HTTPException 500 (exn_str e)))) \/
      (exists e,
         ats_only_chain (file_content f) w = (Raise e, w') /\
         1 <= length sent <= 9 /\
         resp = HTTPException 500 (exn_str e)))).
Proof.
  unfold api_analyze_resume_ats_only. intros H.
  destruct (endswith (filename f) (s_ ".pdf")) eqn:Hname; cbn [negb] in H.
  - right. split; [now apply endswith_inv|]. cbv zeta in H.
    destruct (ats_only_chain (file_content f) w) as [r w1] eqn:Hrun.
    assert (Hchain :
      analyze fitz_open convert_from_bytes save_jpeg b64encode loads dumps
              generate_content STEP1 STEP2_JOB STEP3_JOB STEP2_ATS STEP3_ATS
              ATS_ONLY (file_content f) [] w = (r, w1)) by exact Hrun.
    destruct (@chain_requests image fitz_open convert_from_bytes save_jpeg
                b64encode loads dumps oracle generate_content STEP1
                STEP2_JOB STEP3_JOB STEP2_ATS STEP3_ATS ATS_ONLY
                (file_content f) [] w r w1 Hchain)
      as (p2 & p3 & n1 & n2 & n3 & Hlog & Hn1 & Hn2 & Hn3 & _ & Hok).
    destruct r as [report|e].
    + assert (Hsame : w1 = w' /\
                ((exists body, render report = Ok body /\
                               resp = JSONResponse report) \/
                 (exists e, render report = Raise e /\
                            resp = HTTPException 500 (exn_str e)))).
      { destruct (render report) as [body|e] eqn:Hr; inversion H; subst;
          (split; [reflexivity|]); [left | right]; eauto. }
      destruct Hsame as [<- Hresp]. clear H.
      eexists. split; [exact Hlog|]. left. exists report.
      split; [reflexivity|]. rewrite chain_log_length.
      destruct (Hok eq_refl) as [H2 H3]. split; [lia|].
      split; [|exact Hresp].
      destruct (@chain_report image fitz_open convert_from_bytes save_jpeg
                  b64encode loads dumps oracle generate_content STEP1
                  STEP2_JOB STEP3_JOB STEP2_ATS STEP3_ATS ATS_ONLY
                  (file_content f) [] w report w1 Hchain)
        as (text3 & final & _ & Hfinal).
      destruct final; try discriminate.
      cbn [client_response_of] in Hfinal. inversion Hfinal; subst report.
      intros k Hin.
      rewrite (dict_keys_filter (fun k => negb (starts_with_underscore k)))
        in Hin.
      apply filter_In in Hin as [_ Hk]. now apply negb_true_iff in Hk.
    + inversion H; subst resp w'; clear H.
      eexists. split; [exact Hlog|]. right. exists e.
      split; [reflexivity|]. split; [|reflexivity].
      rewrite chain_log_length. lia.
  - left. inversion H; subst. split; [|split; reflexivity].
    intros Hstem. apply pdf_name in Hstem. congruence.
Qed.

End HandlerMore.

Lemma ats_only_answers_witness :
  let h := api_analyze_resume_ats_only toy_fitz_open toy_convert_from_bytes
             toy_save_jpeg toy_b64encode json_loads toy_dumps play toy_step1
             toy_step2_ats toy_step3_ats toy_render
             (UploadFile (s_ "resume.pdf") seven_pages) in
  let chain := analyze_resume_ats_only toy_fitz_open toy_convert_from_bytes
             toy_save_jpeg toy_b64encode json_loads toy_dumps play toy_step1
             toy_step2_ats toy_step3_ats in
  let w := World nan_replies [] [] in
  fst (chain seven_pages w) =
    Ok [(s_ "overall_score", JFloat (s_ "NaN"))] /\
  fst (h w) = HTTPException 500 msg_out_of_range /\
  ((~ (exists stem, s_ "resume.pdf" = stem ++ s_ ".pdf") /\
    fst (h w) = HTTPException 400 (s_ "Only PDF files are supported") /\
    snd (h w) = w) \/
   ((exists stem, s_ "resume.pdf" = stem ++ s_ ".pdf") /\
    exists sent,
      w_requests (snd (h w)) = w_requests w ++ sent /\
      ((exists report,
          chain seven_pages w = (Ok report, snd (h w)) /\
          3 <= length sent <= 9 /\
          (forall k, In k (dict_keys report) ->
                     starts_with_underscore k = false) /\
          ((exists body, toy_render report = Ok body /\
                         fst (h w) = JSONResponse report) \/
           (exists e, toy_render report = Raise e /\
                      fst (h w) = HTTPException 500 (exn_str e)))) \/
       (exists e,
          chain seven_pages w = (Raise e, snd (h w)) /\
          1 <= length sent <= 9 /\
          fst (h w) = HTTPException 500 (exn_str e))))).
Proof.
  intros h chain w. split; [vm_compute; reflexivity|].
  split; [vm_compute; reflexivity|].
  apply (@ats_only_answers nat toy_fitz_open toy_convert_from_bytes
           toy_save_jpeg toy_b64encode json_loads toy_dumps script play
           toy_step1 toy_step2_job toy_step3_job toy_step2_ats toy_step3_ats
           toy_render (UploadFile (s_ "resume.pdf") seven_pages) w
           (snd (h w)) (fst (h w))).
  apply surjective_pairing.
Defined.
